(** * db/types/base.py: database type identities and their resolution

    A shallow embedding of [db.types.base]: the two Enums of database types
    ([PostgresType], [MathesarCustomType]), the frozensets that classify
    them, the lookups against an engine's [ischema_names] registry, and the
    availability check against the type ids installed on a database. *)

From stdpp Require Import base decidable countable gmap sets list strings.
From Stdlib Require Import Ascii String.

Open Scope string_scope.

(** ** Python outcomes *)

Module Py.

(** The exceptions the module raises or catches.  [Exception] carries the
    message given to the constructor; [DBAPIError] stands for whatever the
    database driver raises during the introspection query. *)
Inductive exn : Type :=
| TypeError (msg : string)
| ValueError (msg : string)
| Exception (msg : string)
| DBAPIError (msg : string).

(** A call either returns a value or raises. *)
Inductive result (A : Type) : Type :=
| Ok (a : A)
| Raise (e : exn).
Arguments Ok {A} a.
Arguments Raise {A} e.

#[global] Instance result_ret : MRet result := λ A a, Ok a.
#[global] Instance result_bind : MBind result := λ A B k r,
  match r with
  | Ok a => k a
  | Raise e => Raise e
  end.

(** [try: r except ValueError: h] *)
Definition except_ValueError {A} (r : result A) (h : result A) : result A :=
  match r with
  | Raise (ValueError _) => h
  | _ => r
  end.

(** [try: r except TypeError: h] *)
Definition except_TypeError {A} (r : result A) (h : result A) : result A :=
  match r with
  | Raise (TypeError _) => h
  | _ => r
  end.

(** Values passed as keyword arguments. *)
Inductive pyval : Type :=
| VNone
| VBool (b : bool)
| VInt (z : Z)
| VStr (s : string).

End Py.

Import Py.

(** ** The two Enums *)

(** The double quote character, for the value of [CHAR]. *)
Definition dquote : ascii := Ascii.ascii_of_nat 34.

Inductive PostgresType : Type :=
| _ARRAY | BIGINT | BIT_VARYING | BIT | BOOLEAN | BYTEA | CHAR
| CHARACTER_VARYING | CHARACTER | CIDR | DATE | DATERANGE
| DOUBLE_PRECISION | FLOAT | HSTORE | INET | INT4RANGE | INT8RANGE
| INTEGER | INTERVAL | JSON | JSONB | MACADDR | MONEY | NAME | NUMERIC
| NUMRANGE | OID | REAL | REGCLASS | SMALLINT | TEXT | TIME
| TIME_WITH_TIME_ZONE | TIME_WITHOUT_TIME_ZONE | TIMESTAMP
| TIMESTAMP_WITH_TIME_ZONE | TIMESTAMP_WITHOUT_TIME_ZONE | TSRANGE
| TSTZRANGE | TSVECTOR | UUID.

(** Members in definition order, as iterating the Enum yields them. *)
Definition PostgresType_members : list PostgresType :=
  [ _ARRAY; BIGINT; BIT_VARYING; BIT; BOOLEAN; BYTEA; CHAR;
    CHARACTER_VARYING; CHARACTER; CIDR; DATE; DATERANGE;
    DOUBLE_PRECISION; FLOAT; HSTORE; INET; INT4RANGE; INT8RANGE;
    INTEGER; INTERVAL; JSON; JSONB; MACADDR; MONEY; NAME; NUMERIC;
    NUMRANGE; OID; REAL; REGCLASS; SMALLINT; TEXT; TIME;
    TIME_WITH_TIME_ZONE; TIME_WITHOUT_TIME_ZONE; TIMESTAMP;
    TIMESTAMP_WITH_TIME_ZONE; TIMESTAMP_WITHOUT_TIME_ZONE; TSRANGE;
    TSTZRANGE; TSVECTOR; UUID ].

(** The [value] of each member. *)
Definition PostgresType_value (t : PostgresType) : string :=
  match t with
  | _ARRAY => "_array"
  | BIGINT => "bigint"
  | BIT_VARYING => "bit varying"
  | BIT => "bit"
  | BOOLEAN => "boolean"
  | BYTEA => "bytea"
  | CHAR => String dquote ("char" ++ String dquote "")
  | CHARACTER_VARYING => "character varying"
  | CHARACTER => "character"
  | CIDR => "cidr"
  | DATE => "date"
  | DATERANGE => "daterange"
  | DOUBLE_PRECISION => "double precision"
  | FLOAT => "float"
  | HSTORE => "hstore"
  | INET => "inet"
  | INT4RANGE => "int4range"
  | INT8RANGE => "int8range"
  | INTEGER => "integer"
  | INTERVAL => "interval"
  | JSON => "json"
  | JSONB => "jsonb"
  | MACADDR => "macaddr"
  | MONEY => "money"
  | NAME => "name"
  | NUMERIC => "numeric"
  | NUMRANGE => "numrange"
  | OID => "oid"
  | REAL => "real"
  | REGCLASS => "regclass"
  | SMALLINT => "smallint"
  | TEXT => "text"
  | TIME => "time"
  | TIME_WITH_TIME_ZONE => "time with time zone"
  | TIME_WITHOUT_TIME_ZONE => "time without time zone"
  | TIMESTAMP => "timestamp"
  | TIMESTAMP_WITH_TIME_ZONE => "timestamp with time zone"
  | TIMESTAMP_WITHOUT_TIME_ZONE => "timestamp without time zone"
  | TSRANGE => "tsrange"
  | TSTZRANGE => "tstzrange"
  | TSVECTOR => "tsvector"
  | UUID => "uuid"
  end.

Inductive MathesarCustomType : Type :=
| EMAIL | MATHESAR_MONEY | MULTICURRENCY_MONEY | URI.

Definition MathesarCustomType_members : list MathesarCustomType :=
  [ EMAIL; MATHESAR_MONEY; MULTICURRENCY_MONEY; URI ].

(** The argument each member's definition passes to [__new__]. *)
Definition MathesarCustomType_unqualified_id (t : MathesarCustomType) : string :=
  match t with
  | EMAIL => "email"
  | MATHESAR_MONEY => "mathesar_money"
  | MULTICURRENCY_MONEY => "multicurrency_money"
  | URI => "uri"
  end.

(** A [DatabaseType] is a member of one of the two Enums that mix it in. *)
Inductive DatabaseType : Type :=
| Postgres (t : PostgresType)
| MathesarCustom (t : MathesarCustomType).

#[global] Instance PostgresType_eq_dec : EqDecision PostgresType.
Proof. solve_decision. Defined.

#[global] Instance MathesarCustomType_eq_dec : EqDecision MathesarCustomType.
Proof. solve_decision. Defined.

#[global] Instance DatabaseType_eq_dec : EqDecision DatabaseType.
Proof. solve_decision. Defined.

(** Enum members hash and compare by identity; a member is determined by its
    [value], which is what the encodings below use. *)
Definition PostgresType_of_value (v : string) : option PostgresType :=
  find (λ t, bool_decide (PostgresType_value t = v)) PostgresType_members.

Definition MathesarCustomType_of_unqualified_id (v : string)
  : option MathesarCustomType :=
  find (λ t, bool_decide (MathesarCustomType_unqualified_id t = v))
       MathesarCustomType_members.

#[global] Program Instance PostgresType_countable : Countable PostgresType :=
  inj_countable PostgresType_value PostgresType_of_value _.
Next Obligation. by intros []. Qed.

#[global] Program Instance MathesarCustomType_countable
  : Countable MathesarCustomType :=
  inj_countable MathesarCustomType_unqualified_id
                MathesarCustomType_of_unqualified_id _.
Next Obligation. by intros []. Qed.

#[global] Program Instance DatabaseType_countable : Countable DatabaseType :=
  inj_countable'
    (λ t, match t with Postgres p => inl p | MathesarCustom c => inr c end)
    (λ s, match s with inl p => Postgres p | inr c => MathesarCustom c end) _.
Next Obligation. by intros []. Qed.

(** ** The classifying frozensets *)

Definition _non_canonical_alias_db_types : gset DatabaseType :=
  {[ Postgres FLOAT; Postgres TIME; Postgres TIMESTAMP ]}.

Definition _inconsistent_db_types : gset DatabaseType :=
  _non_canonical_alias_db_types
  ∪ {[ Postgres NAME; Postgres CHAR; Postgres BIT_VARYING ]}.

Definition _sa_only_db_types : gset DatabaseType :=
  {[ Postgres _ARRAY ]}.

Definition _optional_db_types : gset DatabaseType :=
  {[ Postgres HSTORE ]}.

Definition _known_vanilla_db_types : gset DatabaseType :=
  list_to_set (Postgres <$> PostgresType_members).

Definition _known_custom_db_types : gset DatabaseType :=
  list_to_set (MathesarCustom <$> MathesarCustomType_members).

Definition known_db_types : gset DatabaseType :=
  _known_vanilla_db_types ∪ _known_custom_db_types.

(** Truth value of a frozenset: false exactly when it is empty. *)
Definition frozenset_bool `{Countable A} (s : gset A) : bool :=
  negb (bool_decide (s = ∅)).

(** ** The classification properties of [DatabaseType] *)

Definition is_alias (self : DatabaseType) : bool :=
  bool_decide (self ∈ _non_canonical_alias_db_types).

Definition is_sa_only (self : DatabaseType) : bool :=
  bool_decide (self ∈ _sa_only_db_types).

Definition is_optional (self : DatabaseType) : bool :=
  bool_decide (self ∈ _optional_db_types).

Definition is_inconsistent (self : DatabaseType) : bool :=
  bool_decide (self ∈ _inconsistent_db_types).

Definition is_ignored (self : DatabaseType) : bool :=
  bool_decide (self ∈ _inconsistent_db_types).

Definition is_reflection_supported (self : DatabaseType) : bool :=
  negb (is_inconsistent self).

(** [not self.is_inconsistent and not _sa_only_db_types]: the second operand
    is the truth value of the frozenset itself. *)
Definition is_application_supported (self : DatabaseType) : bool :=
  negb (is_inconsistent self) && negb (frozenset_bool _sa_only_db_types).

(** ** The engine and the SQLAlchemy objects the module touches *)

(** A class object of the type library.  Classes compare by identity
    ([==] on two classes), so a class is represented by the token that
    identifies it; what calling it does is given by the [SaRuntime]. *)
Inductive SaClass : Type := SaClassRef (qualname : string).

#[global] Instance SaClass_eq_dec : EqDecision SaClass.
Proof. solve_decision. Defined.

Definition kwargs : Type := list (string * pyval).

(** An instance of a type class, with the state its constructor gave it. *)
Record SaInstance : Type := {
  inst_class : SaClass;
  inst_state : kwargs;
}.

(** What may be passed where the code expects [sa_type]. *)
Inductive PyObj : Type :=
| ObjClass (c : SaClass)
| ObjInstance (i : SaInstance).

(** [engine.dialect]: [ischema_names] is a dict from type id to class; it
    is kept as the list of its items in iteration order. *)
Record Dialect : Type := {
  dialect_name : string;
  ischema_names : list (string * SaClass);
}.

(** A connection to the database: [execute_type_names] is what
    [connection.execute] yields for the introspection statement, the first
    column of the rows or the error raised. *)
Record Connection : Type := {
  execute_type_names : result (list string);
}.

(** [connect] is what [engine.connect()] yields: a connection, or the error
    raised when none can be made. *)
Record Engine : Type := {
  dialect : Dialect;
  connect : result Connection;
}.

(** The behaviour of the type library's classes. *)
Record SaRuntime : Type := {
  (** calling [sa_class] with the keyword arguments [type_options] *)
  sa_new : SaClass → kwargs → result SaInstance;
  (** [instance.compile(dialect=dialect)] *)
  sa_compile : SaInstance → Dialect → result string;
  (** [sa_class.compile(dialect=dialect)], the attribute taken from the
      class object itself *)
  sa_class_compile : SaClass → Dialect → result string;
}.

(** [d.get(k)] *)
Definition dict_get {V} (d : list (string * V)) (k : string) : option V :=
  snd <$> find (λ e, bool_decide (e.1 = k)) d.

(** A dict has each key once. *)
Definition dict_wf {V} (d : list (string * V)) : Prop := NoDup (d.*1).

(** [inspect.isclass] *)
Definition isclass (o : PyObj) : bool :=
  match o with
  | ObjClass _ => true
  | ObjInstance _ => false
  end.

(** [o == c] for a class [c]: identity, so no instance equals a class. *)
Definition obj_eq_class (o : PyObj) (c : SaClass) : bool :=
  match o with
  | ObjClass c' => bool_decide (c' = c)
  | ObjInstance _ => false
  end.

(** Truth value of a string. *)
Definition str_bool (s : string) : bool := negb (bool_decide (s = "")).

(** ** Commands that talk to the database

    The state threaded through is the number of statements executed so
    far. *)

Definition IO (A : Type) : Type := nat → result A * nat.

#[global] Instance IO_ret : MRet IO := λ A a n, (Ok a, n).
#[global] Instance IO_bind : MBind IO := λ A B k m n,
  match m n with
  | (Ok a, n') => k a n'
  | (Raise e, n') => (Raise e, n')
  end.

(** Executing one statement whose outcome is [r]. *)
Definition execute {A} (r : result A) : IO A := λ n, (r, S n).

(** A call with outcome [r] that executes no statement. *)
Definition call {A} (r : result A) : IO A := λ n, (r, n).

(** A generator expression with a condition, consumed in order. *)
Fixpoint filterM {A} (p : A → IO bool) (l : list A) : IO (list A) :=
  match l with
  | [] => mret []
  | x :: l' =>
      b ← p x;
      r ← filterM p l';
      mret (if b : bool then x :: r else r)
  end.

(** ** String helpers *)

(** [self.startswith(prefix)] *)
Fixpoint startswith (self prefix : string) {struct prefix} : bool :=
  match prefix, self with
  | EmptyString, _ => true
  | String _ _, EmptyString => false
  | String a prefix', String b self' =>
      bool_decide (a = b) && startswith self' prefix'
  end.

(** [s[n:]]: the slice is empty when [n] is past the end. *)
Fixpoint slice_from (n : nat) (s : string) : string :=
  match n, s with
  | O, _ => s
  | S _, EmptyString => EmptyString
  | S n', String _ s' => slice_from n' s'
  end.

(** [_remove_prefix(self, prefix)]; [self[:]] is a copy of [self]. *)
Definition _remove_prefix (self prefix : string) : string :=
  if startswith self prefix then slice_from (String.length prefix) self
  else self.

(** ** The functions of the module *)

Section Base.

(** [preparer.quote_schema(SCHEMA)]: [SCHEMA] is built from
    [constants.MATHESAR_PREFIX], and the preparer belongs to the type
    library; neither is part of this module, so the resulting qualifier
    is left arbitrary here.  The module's comment says it should usually
    equal "mathesar_types". *)
Variable _ma_type_qualifier_prefix : string.

(** The type library in use. *)
Variable sa : SaRuntime.

(** [".".join([_ma_type_qualifier_prefix, unqualified_name])] *)
Definition get_qualified_name (unqualified_name : string) : string :=
  _ma_type_qualifier_prefix ++ "." ++ unqualified_name.

(** [MathesarCustomType.__new__] stores the qualified id as the value. *)
Definition MathesarCustomType_value (t : MathesarCustomType) : string :=
  get_qualified_name (MathesarCustomType_unqualified_id t).

(** [DatabaseType.id] *)
Definition id (self : DatabaseType) : string :=
  match self with
  | Postgres t => PostgresType_value t
  | MathesarCustom t => MathesarCustomType_value t
  end.

(** [PostgresType(v)]: the member whose value is [v], else [ValueError]. *)
Definition PostgresType_call (v : string) : result PostgresType :=
  match PostgresType_of_value v with
  | Some t => Ok t
  | None => Raise (ValueError (v ++ " is not a valid PostgresType"))
  end.

(** [MathesarCustomType(v)]: lookup by the (qualified) value. *)
Definition MathesarCustomType_call (v : string) : result MathesarCustomType :=
  match find (λ t, bool_decide (MathesarCustomType_value t = v))
             MathesarCustomType_members with
  | Some t => Ok t
  | None => Raise (ValueError (v ++ " is not a valid MathesarCustomType"))
  end.

Definition get_sa_class (self : DatabaseType) (engine : Engine)
  : option SaClass :=
  if negb (is_ignored self) then
    dict_get (ischema_names (dialect engine)) (id self)
  else None.

Definition _get_type_ids_on_database (engine : Engine) : IO (gset string) :=
  connection ← call (connect engine);
  rows ← execute (execute_type_names connection);
  mret (list_to_set rows).

Definition is_available (self : DatabaseType) (engine : Engine)
    (type_ids_on_database : option (gset string)) : IO bool :=
  type_ids_on_database ←
    match type_ids_on_database with
    | None => _get_type_ids_on_database engine
    | Some ids => mret ids
    end;
  let is_type_in_database := bool_decide (id self ∈ type_ids_on_database) in
  mret is_type_in_database.

Definition get_sa_instance_compiled (self : DatabaseType) (engine : Engine)
    (type_options : kwargs) : result (option string) :=
  match get_sa_class self engine with
  | Some sa_class =>
      instance ← sa_new sa sa_class type_options;
      compiled ← sa_compile sa instance (dialect engine);
      mret (Some compiled)
  | None => mret None
  end.

Definition get_db_type_enum_from_id (db_type_id : string)
  : result (option DatabaseType) :=
  except_ValueError
    (t ← PostgresType_call db_type_id; mret (Some (Postgres t)))
    (except_ValueError
       (t ← MathesarCustomType_call db_type_id;
        mret (Some (MathesarCustom t)))
       (mret None)).

Definition get_available_known_db_types (engine : Engine)
  : IO (list DatabaseType) :=
  type_ids_on_database ← _get_type_ids_on_database engine;
  filterM (λ db_type, is_available db_type engine (Some type_ids_on_database))
          (elements known_db_types).

Definition _get_sa_type_class_id_from_ischema_names
    (sa_type_class1 : PyObj) (engine : Engine) : option string :=
  fst <$> find (λ item, obj_eq_class sa_type_class1 item.2)
               (ischema_names (dialect engine)).

Definition _sa_type_class_to_db_type_id (sa_type_class : PyObj)
    (engine : Engine) : option string :=
  _get_sa_type_class_id_from_ischema_names sa_type_class engine.

Definition programming_error : exn :=
  Exception
    "Programming error: sa_type parameter must be a class, not an instance.".

Definition unmapped_class_error : exn :=
  Exception
    "We don't know how to map this type class to a DatabaseType Enum.".

Definition get_db_type_enum_from_class (sa_type : PyObj) (engine : Engine)
  : result DatabaseType :=
  if negb (isclass sa_type) then Raise programming_error
  else
    match _sa_type_class_to_db_type_id sa_type engine with
    | Some db_type_id =>
        if str_bool db_type_id then
          db_type ← get_db_type_enum_from_id db_type_id;
          match db_type with
          | Some db_type => Ok db_type
          | None => Raise unmapped_class_error
          end
        else Raise unmapped_class_error
    | None => Raise unmapped_class_error
    end.

(** [sa_class.compile(dialect=...)] and [sa_class()] on whatever object
    was passed. *)
Definition obj_compile (o : PyObj) (d : Dialect) : result string :=
  match o with
  | ObjClass c => sa_class_compile sa c d
  | ObjInstance i => sa_compile sa i d
  end.

Definition obj_call (o : PyObj) : result SaInstance :=
  match o with
  | ObjClass c => sa_new sa c []
  | ObjInstance _ => Raise (TypeError "object is not callable")
  end.

Definition _compile_sa_class (sa_class : PyObj) (engine : Engine)
  : result string :=
  except_TypeError
    (obj_compile sa_class (dialect engine))
    (instance ← obj_call sa_class;
     sa_compile sa instance (dialect engine)).

End Base.

(** ** Auxiliary definitions for the statements *)

(** Whether a string contains a dot; qualified ids do, built-in ids and
    unqualified names do not. *)
Fixpoint has_dot (s : string) : bool :=
  match s with
  | EmptyString => false
  | String a s' => bool_decide (a = "."%char) || has_dot s'
  end.

(** The three non-alias types listed in [_inconsistent_db_types]. *)
Definition inconsistent_non_alias : gset DatabaseType :=
  {[ Postgres NAME; Postgres CHAR; Postgres BIT_VARYING ]}.

(** ** A sample type library and sample engines *)

Module Sample.

Definition BOOLEAN_cls : SaClass := SaClassRef "sqlalchemy.BOOLEAN".
Definition FLOAT_cls : SaClass := SaClassRef "sqlalchemy.FLOAT".
Definition NUMERIC_cls : SaClass := SaClassRef "sqlalchemy.NUMERIC".
Definition TIMESTAMP_cls : SaClass :=
  SaClassRef "sqlalchemy.dialects.postgresql.TIMESTAMP".
Definition CITEXT_cls : SaClass :=
  SaClassRef "sqlalchemy.dialects.postgresql.CITEXT".
Definition Unregistered_cls : SaClass := SaClassRef "builtins.object".

(** Keyword arguments each class accepts. *)
Definition accepted (c : SaClass) : list string :=
  if decide (c = NUMERIC_cls) then ["precision"; "scale"]
  else if decide (c = TIMESTAMP_cls) then ["timezone"; "precision"]
  else if decide (c = FLOAT_cls) then ["precision"]
  else [].

(** A library whose constructors reject unknown keyword arguments with
    [TypeError], whose instances compile to the class name, and whose
    [compile] cannot be called on the class itself. *)
Definition runtime : SaRuntime := {|
  sa_new c opts :=
    if forallb (λ o, bool_decide (o.1 ∈ accepted c)) opts
    then Ok {| inst_class := c; inst_state := opts |}
    else Raise (TypeError "__init__() got an unexpected keyword argument");
  sa_compile i d :=
    match inst_class i with SaClassRef n => Ok n end;
  sa_class_compile c d :=
    Raise (TypeError "compile() missing 1 required positional argument");
|}.

(** A registry in which two ids share one class, as a dialect that
    reflects both timestamp spellings as the same class has. *)
Definition shared_class_dialect : Dialect := {|
  dialect_name := "postgresql";
  ischema_names :=
    [ ("boolean", BOOLEAN_cls);
      ("float", FLOAT_cls);
      ("numeric", NUMERIC_cls);
      ("timestamp", TIMESTAMP_cls);
      ("timestamp with time zone", TIMESTAMP_cls);
      ("citext", CITEXT_cls) ];
|}.

Definition connection : Connection := {|
  execute_type_names := Ok ["numeric"; "text"; "boolean"; "float"; "xml"];
|}.

Definition engine : Engine := {|
  dialect := shared_class_dialect;
  connect := Ok connection;
|}.

(** An engine that cannot connect. *)
Definition broken_engine : Engine := {|
  dialect := shared_class_dialect;
  connect := Raise (DBAPIError "connection refused");
|}.

(** A connection on which the introspection statement is refused. *)
Definition denied_connection : Connection := {|
  execute_type_names := Raise (DBAPIError "permission denied");
|}.

Definition denied_engine : Engine := {|
  dialect := shared_class_dialect;
  connect := Ok denied_connection;
|}.

Definition q : string := "mathesar_types".

End Sample.

(** ** Further sample libraries and engines *)

Module SampleExtra.

Definition ARRAY_cls : SaClass :=
  SaClassRef "sqlalchemy.dialects.postgresql.ARRAY".

(** A library whose classes all need a positional argument, as the array
    class needs its item type: calling one without arguments raises. *)
Definition strict_runtime : SaRuntime := {|
  sa_new c opts :=
    Raise (TypeError "__init__() missing 1 required positional argument");
  sa_compile i d :=
    match inst_class i with SaClassRef n => Ok n end;
  sa_class_compile c d :=
    Raise (TypeError "compile() missing 1 required positional argument");
|}.

(** A library whose compilation fails with an error that is not a
    [TypeError]. *)
Definition failing_runtime : SaRuntime := {|
  sa_new c opts := Ok {| inst_class := c; inst_state := opts |};
  sa_compile i d := Raise (Exception "unsupported compilation");
  sa_class_compile c d := Raise (Exception "unsupported compilation");
|}.

(** The rows of [Sample.engine] in another order and with repetitions,
    behind a dialect with an empty registry. *)
Definition shuffled_connection : Connection := {|
  execute_type_names :=
    Ok ["xml"; "float"; "boolean"; "numeric"; "text"; "float"; "xml"];
|}.

Definition shuffled_engine : Engine := {|
  dialect := {| dialect_name := "postgresql"; ischema_names := [] |};
  connect := Ok shuffled_connection;
|}.

(** A database on which none of the known types is installed. *)
Definition bare_connection : Connection := {|
  execute_type_names := Ok ["xml"; "pg_lsn"];
|}.

Definition bare_engine : Engine := {|
  dialect := Sample.shared_class_dialect;
  connect := Ok bare_connection;
|}.

End SampleExtra.

(** * Properties *)

(** ** Lookups by key *)

Section Find.
Context {A B : Type} `{EqDecision B} (f : A → B).
Hypothesis f_inj : ∀ x y, f x = f y → x = y.

Lemma find_key_Some (l : list A) (v : B) (a : A) :
  find (λ t, bool_decide (f t = v)) l = Some a ↔ a ∈ l ∧ f a = v.
Proof.
  induction l as [|x l IH]; simpl.
  - split; [done|]. intros [Hin _]. by apply elem_of_nil in Hin.
  - case_bool_decide as Hx.
    + split.
      * intros [= <-]. split; [left|done].
      * intros [_ Ha]. f_equal. apply f_inj. congruence.
    + rewrite IH, elem_of_cons. split; [intuition|].
      intros [[->|Hin] Ha]; [done|by split].
Qed.

Lemma find_key_None (l : list A) (v : B) :
  find (λ t, bool_decide (f t = v)) l = None ↔ ∀ a, a ∈ l → f a ≠ v.
Proof.
  induction l as [|x l IH]; simpl.
  - split; [|done]. intros _ a Ha. by apply elem_of_nil in Ha.
  - case_bool_decide as Hx.
    + split; [done|]. intros Hall. destruct (Hall x); [left|done].
    + rewrite IH. split.
      * intros Hall a [->|Hin]%elem_of_cons; auto.
      * intros Hall a Hin. apply Hall. by right.
Qed.
End Find.

(** The first item of a list that satisfies a test, with what precedes it. *)
Lemma find_split {A} (p : A → bool) (l : list A) (a : A) :
  find p l = Some a ↔
  ∃ pre post,
    l = (pre ++ a :: post)%list ∧ p a = true ∧ Forall (λ x, p x = false) pre.
Proof.
  induction l as [|x l IH]; simpl.
  - split; [done|]. intros (pre & post & Hl & _). by destruct pre.
  - destruct (p x) eqn:Hx.
    + split.
      * intros [= <-]. by exists [], l.
      * intros (pre & post & Hl & Ha & Hpre).
        destruct pre as [|y pre]; simplify_eq/=; [done|].
        apply Forall_cons in Hpre as [Hy _]. congruence.
    + rewrite IH. split.
      * intros (pre & post & -> & Ha & Hpre).
        exists (x :: pre), post. by repeat split; [|constructor].
      * intros (pre & post & Hl & Ha & Hpre).
        destruct pre as [|y pre]; simplify_eq/=; [congruence|].
        apply Forall_cons in Hpre as [_ Hpre]. by exists pre, post.
Qed.

Lemma find_none_Forall {A} (p : A → bool) (l : list A) :
  find p l = None ↔ Forall (λ x, p x = false) l.
Proof.
  induction l as [|x l IH]; simpl; [by split; [constructor|]|].
  destruct (p x) eqn:Hx.
  - split; [done|]. intros [??]%Forall_cons. congruence.
  - rewrite IH, Forall_cons. tauto.
Qed.

(** ** Dots in identifiers *)

Lemma has_dot_qualified (q n : string) : has_dot (q ++ "." ++ n) = true.
Proof. induction q as [|a q IH]; simpl; [done|]. rewrite IH. apply orb_true_r. Qed.

Lemma PostgresType_value_no_dot (t : PostgresType) :
  has_dot (PostgresType_value t) = false.
Proof. by destruct t. Qed.

Lemma unqualified_id_no_dot (t : MathesarCustomType) :
  has_dot (MathesarCustomType_unqualified_id t) = false.
Proof. by destruct t. Qed.

Lemma string_app_inj (q s1 s2 : string) : q ++ s1 = q ++ s2 → s1 = s2.
Proof. induction q as [|a q IH]; simpl; [done|]. intros [= ?]. auto. Qed.

(** ** The Enums as catalogs *)

Lemma PostgresType_members_all (t : PostgresType) : t ∈ PostgresType_members.
Proof. destruct t; unfold PostgresType_members; set_solver. Qed.

Lemma MathesarCustomType_members_all (t : MathesarCustomType) :
  t ∈ MathesarCustomType_members.
Proof. destruct t; unfold MathesarCustomType_members; set_solver. Qed.

Lemma PostgresType_of_value_value (t : PostgresType) :
  PostgresType_of_value (PostgresType_value t) = Some t.
Proof. by destruct t. Qed.

Lemma PostgresType_value_inj (t1 t2 : PostgresType) :
  PostgresType_value t1 = PostgresType_value t2 → t1 = t2.
Proof.
  intros Heq. apply (f_equal PostgresType_of_value) in Heq.
  rewrite !PostgresType_of_value_value in Heq. congruence.
Qed.

Lemma unqualified_id_inj (t1 t2 : MathesarCustomType) :
  MathesarCustomType_unqualified_id t1 = MathesarCustomType_unqualified_id t2 →
  t1 = t2.
Proof. by destruct t1, t2. Qed.

Lemma PostgresType_of_value_Some (v : string) (t : PostgresType) :
  PostgresType_of_value v = Some t ↔ PostgresType_value t = v.
Proof.
  unfold PostgresType_of_value.
  rewrite (find_key_Some _ PostgresType_value_inj).
  pose proof (PostgresType_members_all t). tauto.
Qed.

Lemma PostgresType_of_value_None (v : string) :
  PostgresType_of_value v = None ↔ ∀ t, PostgresType_value t ≠ v.
Proof.
  unfold PostgresType_of_value. rewrite find_key_None.
  split; [|by auto]. intros H t. apply H, PostgresType_members_all.
Qed.

(** ** Classification *)

Lemma sa_only_db_types_nonempty : frozenset_bool _sa_only_db_types = true.
Proof. by vm_compute. Qed.

(** C1 (the code departs from the claim): [is_application_supported]
    evaluates [not _sa_only_db_types], the truth value of a non-empty
    frozenset, instead of testing membership.  [BOOLEAN] is neither
    inconsistent nor engine-only, yet it is reported as not supported by the
    application; indeed no type identity is ever reported as supported. *)
Theorem is_application_supported_BOOLEAN :
  is_inconsistent (Postgres BOOLEAN) = false ∧
  is_sa_only (Postgres BOOLEAN) = false ∧
  is_application_supported (Postgres BOOLEAN) = false ∧
  ∀ t, is_application_supported t = false.
Proof.
  repeat split; try by vm_compute.
  intros t. unfold is_application_supported.
  rewrite sa_only_db_types_nonempty. apply andb_false_r.
Qed.

(** C2 as stated fails: the inconsistent types that are not aliases are
    three, not two. *)
Lemma inconsistent_not_two_extra :
  ¬ ((∀ t, is_alias t = true → is_inconsistent t = true) ∧
     size (_inconsistent_db_types ∖ _non_canonical_alias_db_types) = 2).
Proof. intros [_ Hsize]. vm_compute in Hsize. discriminate. Qed.

(** C2 (amended): every alias is inconsistent, and the inconsistent types
    are exactly the aliases together with three further types, [NAME],
    [CHAR] and [BIT_VARYING], none of which is an alias. *)
Theorem inconsistent_db_types_members :
  (∀ t, is_alias t = true → is_inconsistent t = true) ∧
  (∀ t, is_inconsistent t = true ↔
        is_alias t = true ∨ t ∈ inconsistent_non_alias) ∧
  (∀ t, t ∈ inconsistent_non_alias → is_alias t = false) ∧
  size inconsistent_non_alias = 3 ∧
  size (_inconsistent_db_types ∖ _non_canonical_alias_db_types) = 3.
Proof.
  assert (Hchar : ∀ t, is_inconsistent t = true ↔
            is_alias t = true ∨ t ∈ inconsistent_non_alias).
  { intros t. unfold is_inconsistent, is_alias, _inconsistent_db_types.
    rewrite !bool_decide_eq_true, elem_of_union. done. }
  repeat split; try by vm_compute.
  - intros t Ht. apply Hchar. by left.
  - apply Hchar.
  - apply Hchar.
  - intros t Ht. unfold is_alias. apply bool_decide_eq_false.
    unfold inconsistent_non_alias in Ht.
    rewrite !elem_of_union, !elem_of_singleton in Ht.
    destruct Ht as [[->| ->]| ->]; by vm_compute.
Qed.

Lemma inconsistent_db_types_members_witness :
  (is_alias (Postgres FLOAT) = true ∧
   is_inconsistent (Postgres FLOAT) = true) ∧
  (Postgres BIT_VARYING ∈ inconsistent_non_alias ∧
   is_alias (Postgres BIT_VARYING) = false ∧
   is_inconsistent (Postgres BIT_VARYING) = true).
Proof.
  destruct inconsistent_db_types_members as (Halias & Hchar & Hnon & _).
  assert (is_alias (Postgres FLOAT) = true) as H1 by reflexivity.
  assert (Postgres BIT_VARYING ∈ inconsistent_non_alias) as H2
    by (by vm_compute).
  split; [split; [exact H1|exact (Halias _ H1)]|].
  split; [exact H2|]. split; [exact (Hnon _ H2)|].
  apply Hchar. right. exact H2.
Defined.

(** ** Identifiers *)

Lemma custom_value_inj (q : string) (t1 t2 : MathesarCustomType) :
  MathesarCustomType_value q t1 = MathesarCustomType_value q t2 → t1 = t2.
Proof.
  unfold MathesarCustomType_value, get_qualified_name. intros Heq.
  apply string_app_inj in Heq. simpl in Heq. injection Heq as Heq.
  by apply unqualified_id_inj.
Qed.

Lemma custom_value_has_dot (q : string) (t : MathesarCustomType) :
  has_dot (MathesarCustomType_value q t) = true.
Proof. apply has_dot_qualified. Qed.

Lemma builtin_custom_value_ne (q : string) p c :
  PostgresType_value p ≠ MathesarCustomType_value q c.
Proof.
  intros Heq. pose proof (PostgresType_value_no_dot p) as Hp.
  rewrite Heq, custom_value_has_dot in Hp. discriminate.
Qed.

Lemma id_inj (q : string) (t1 t2 : DatabaseType) :
  id q t1 = id q t2 → t1 = t2.
Proof.
  destruct t1 as [p1|c1], t2 as [p2|c2]; simpl; intros Heq.
  - f_equal. by apply PostgresType_value_inj.
  - by apply builtin_custom_value_ne in Heq.
  - symmetry in Heq. by apply builtin_custom_value_ne in Heq.
  - f_equal. by apply (custom_value_inj q).
Qed.

Lemma id_nonempty (q : string) (t : DatabaseType) : id q t ≠ "".
Proof.
  destruct t as [p|c]; simpl.
  - by destruct p.
  - intros Heq. pose proof (custom_value_has_dot q c) as Hc.
    rewrite Heq in Hc. discriminate.
Qed.

Lemma PostgresType_call_Ok (v : string) (t : PostgresType) :
  PostgresType_value t = v → PostgresType_call v = Ok t.
Proof.
  intros Hv. unfold PostgresType_call.
  by apply PostgresType_of_value_Some in Hv as ->.
Qed.

Lemma PostgresType_call_Raise (v : string) :
  (∀ t, PostgresType_value t ≠ v) →
  ∃ msg, PostgresType_call v = Raise (ValueError msg).
Proof.
  intros Hv. unfold PostgresType_call.
  apply PostgresType_of_value_None in Hv as ->. eauto.
Qed.

Lemma MathesarCustomType_call_Ok (q v : string) (t : MathesarCustomType) :
  MathesarCustomType_value q t = v → MathesarCustomType_call q v = Ok t.
Proof.
  intros Hv. unfold MathesarCustomType_call.
  assert (find (λ t, bool_decide (MathesarCustomType_value q t = v))
               MathesarCustomType_members = Some t) as ->; [|done].
  apply (find_key_Some _ (custom_value_inj q)).
  split; [apply MathesarCustomType_members_all|done].
Qed.

Lemma MathesarCustomType_call_Raise (q v : string) :
  (∀ t, MathesarCustomType_value q t ≠ v) →
  ∃ msg, MathesarCustomType_call q v = Raise (ValueError msg).
Proof.
  intros Hv. unfold MathesarCustomType_call.
  assert (find (λ t, bool_decide (MathesarCustomType_value q t = v))
               MathesarCustomType_members = None) as ->; [|eauto].
  apply find_key_None. auto.
Qed.

(** What [get_db_type_enum_from_id] returns, by where the id is found. *)
Lemma get_db_type_enum_from_id_builtin (q v : string) (p : PostgresType) :
  PostgresType_value p = v →
  get_db_type_enum_from_id q v = Ok (Some (Postgres p)).
Proof.
  intros Hv. unfold get_db_type_enum_from_id.
  by rewrite (PostgresType_call_Ok v p Hv).
Qed.

Lemma get_db_type_enum_from_id_custom (q v : string) (c : MathesarCustomType) :
  (∀ p, PostgresType_value p ≠ v) →
  MathesarCustomType_value q c = v →
  get_db_type_enum_from_id q v = Ok (Some (MathesarCustom c)).
Proof.
  intros Hp Hc. unfold get_db_type_enum_from_id.
  destruct (PostgresType_call_Raise v Hp) as [msg ->].
  by rewrite (MathesarCustomType_call_Ok q v c Hc).
Qed.

Lemma get_db_type_enum_from_id_unknown (q v : string) :
  (∀ t, id q t ≠ v) → get_db_type_enum_from_id q v = Ok None.
Proof.
  intros Hv. unfold get_db_type_enum_from_id.
  destruct (PostgresType_call_Raise v) as [msg ->].
  { intros p. apply (Hv (Postgres p)). }
  destruct (MathesarCustomType_call_Raise q v) as [msg' ->]; [|done].
  intros c. apply (Hv (MathesarCustom c)).
Qed.

Lemma get_db_type_enum_from_id_id (q : string) (t : DatabaseType) :
  get_db_type_enum_from_id q (id q t) = Ok (Some t).
Proof.
  destruct t as [p|c]; simpl.
  - by apply get_db_type_enum_from_id_builtin.
  - apply get_db_type_enum_from_id_custom; [|done].
    intros p. apply builtin_custom_value_ne.
Qed.

Lemma get_db_type_enum_from_id_cases (q v : string) :
  (∃ t, id q t = v ∧ get_db_type_enum_from_id q v = Ok (Some t)) ∨
  ((∀ t, id q t ≠ v) ∧ get_db_type_enum_from_id q v = Ok None).
Proof.
  destruct (PostgresType_of_value v) as [p|] eqn:Hp.
  { apply PostgresType_of_value_Some in Hp. left. exists (Postgres p).
    split; [done|]. by apply get_db_type_enum_from_id_builtin. }
  rewrite PostgresType_of_value_None in Hp.
  destruct (find (λ t, bool_decide (MathesarCustomType_value q t = v))
                 MathesarCustomType_members) as [c|] eqn:Hc.
  { apply (find_key_Some _ (custom_value_inj q)) in Hc as [_ Hc].
    left. exists (MathesarCustom c).
    split; [done|]. by apply get_db_type_enum_from_id_custom. }
  rewrite find_key_None in Hc. right.
  assert (∀ t, id q t ≠ v) as Hv.
  { intros [p|c]; simpl; [apply Hp|].
    apply Hc, MathesarCustomType_members_all. }
  split; [done|]. by apply get_db_type_enum_from_id_unknown.
Qed.

Lemma get_db_type_enum_from_id_Some (q v : string) (t : DatabaseType) :
  get_db_type_enum_from_id q v = Ok (Some t) ↔ id q t = v.
Proof.
  split.
  - intros Hr. destruct (get_db_type_enum_from_id_cases q v)
      as [(t' & Hid & Hr')|[_ Hr']]; congruence.
  - intros <-. apply get_db_type_enum_from_id_id.
Qed.

(** C6: [get_db_type_enum_from_id] looks the id up among the built-in types
    first and among the custom types next; an id found in neither gives
    [None], and no id string makes it raise. *)
Theorem get_db_type_enum_from_id_total (q db_type_id : string) :
  (∀ p, PostgresType_value p = db_type_id →
        get_db_type_enum_from_id q db_type_id = Ok (Some (Postgres p))) ∧
  (∀ c, (∀ p, PostgresType_value p ≠ db_type_id) →
        MathesarCustomType_value q c = db_type_id →
        get_db_type_enum_from_id q db_type_id = Ok (Some (MathesarCustom c))) ∧
  ((∀ t, id q t ≠ db_type_id) →
        get_db_type_enum_from_id q db_type_id = Ok None) ∧
  (∀ e, get_db_type_enum_from_id q db_type_id ≠ Raise e).
Proof.
  split; [|split; [|split]].
  - apply get_db_type_enum_from_id_builtin.
  - intros c. apply get_db_type_enum_from_id_custom.
  - apply get_db_type_enum_from_id_unknown.
  - intros e. destruct (get_db_type_enum_from_id_cases q db_type_id)
      as [(t & _ & ->)|[_ ->]]; discriminate.
Qed.

Lemma get_db_type_enum_from_id_total_witness :
  (∀ t, id "mathesar_types" t ≠ "nonexistent_type_xyz") ∧
  get_db_type_enum_from_id "mathesar_types" "nonexistent_type_xyz" = Ok None ∧
  get_db_type_enum_from_id "mathesar_types" "numeric"
    = Ok (Some (Postgres NUMERIC)) ∧
  get_db_type_enum_from_id "mathesar_types" "mathesar_types.uri"
    = Ok (Some (MathesarCustom URI)).
Proof.
  assert (∀ t, id "mathesar_types" t ≠ "nonexistent_type_xyz") as Hno.
  { intros [[]|[]]; vm_compute; discriminate. }
  split; [exact Hno|]. split; [|split].
  - apply (get_db_type_enum_from_id_total "mathesar_types"
             "nonexistent_type_xyz"). exact Hno.
  - apply (get_db_type_enum_from_id_total "mathesar_types" "numeric").
    reflexivity.
  - apply (get_db_type_enum_from_id_total "mathesar_types"
             "mathesar_types.uri"); [|reflexivity].
    intros []; vm_compute; discriminate.
Defined.

(** C10: for every custom type only the qualified id resolves: the
    unqualified name gives [None], the id built by [__new__] gives the
    type back. *)
Theorem get_db_type_enum_from_id_custom_qualified
    (q : string) (c : MathesarCustomType) :
  get_db_type_enum_from_id q (MathesarCustomType_unqualified_id c) = Ok None ∧
  id q (MathesarCustom c) = q ++ "." ++ MathesarCustomType_unqualified_id c ∧
  get_db_type_enum_from_id q (id q (MathesarCustom c))
    = Ok (Some (MathesarCustom c)).
Proof.
  split; [|split; [done|apply get_db_type_enum_from_id_id]].
  apply get_db_type_enum_from_id_unknown. intros [p|c'] Heq; simpl in Heq.
  - by destruct p, c.
  - pose proof (custom_value_has_dot q c') as Hd.
    rewrite Heq, unqualified_id_no_dot in Hd. discriminate.
Qed.

(** The example of C10 with the usual qualifier. *)
Example get_db_type_enum_from_id_email :
  get_db_type_enum_from_id "mathesar_types" "email" = Ok None ∧
  get_db_type_enum_from_id "mathesar_types" "mathesar_types.email"
    = Ok (Some (MathesarCustom EMAIL)).
Proof. split; reflexivity. Qed.

(** ** The catalogs *)

Lemma known_vanilla_elem (t : DatabaseType) :
  t ∈ _known_vanilla_db_types ↔ ∃ p, t = Postgres p.
Proof.
  unfold _known_vanilla_db_types.
  rewrite elem_of_list_to_set, list_elem_of_fmap. split.
  - intros (p & -> & _). eauto.
  - intros [p ->]. exists p. split; [done|apply PostgresType_members_all].
Qed.

Lemma known_custom_elem (t : DatabaseType) :
  t ∈ _known_custom_db_types ↔ ∃ c, t = MathesarCustom c.
Proof.
  unfold _known_custom_db_types.
  rewrite elem_of_list_to_set, list_elem_of_fmap. split.
  - intros (c & -> & _). eauto.
  - intros [c ->]. exists c.
    split; [done|apply MathesarCustomType_members_all].
Qed.

Lemma known_db_types_all (t : DatabaseType) : t ∈ known_db_types.
Proof.
  unfold known_db_types. apply elem_of_union. destruct t as [p|c].
  - left. apply known_vanilla_elem. eauto.
  - right. apply known_custom_elem. eauto.
Qed.

Lemma known_catalogs_disjoint :
  _known_vanilla_db_types ## _known_custom_db_types.
Proof.
  apply elem_of_disjoint. intros t [p ->]%known_vanilla_elem
    [c Hc]%known_custom_elem. discriminate.
Qed.

(** C9: every known type has a non-empty id, distinct known types have
    distinct ids, no type is in both catalogs, and the known types number
    as many as the two catalogs together. *)
Theorem known_db_types_catalog (q : string) :
  (∀ t, t ∈ known_db_types → id q t ≠ "") ∧
  (∀ t1 t2, t1 ∈ known_db_types → t2 ∈ known_db_types →
            id q t1 = id q t2 → t1 = t2) ∧
  _known_vanilla_db_types ∩ _known_custom_db_types = ∅ ∧
  size known_db_types
    = size _known_vanilla_db_types + size _known_custom_db_types.
Proof.
  split; [|split; [|split]].
  - intros t _. apply id_nonempty.
  - intros t1 t2 _ _. apply id_inj.
  - apply disjoint_intersection_L, known_catalogs_disjoint.
  - apply size_union, known_catalogs_disjoint.
Qed.

Lemma known_db_types_catalog_witness :
  Postgres MONEY ∈ known_db_types ∧
  MathesarCustom MATHESAR_MONEY ∈ known_db_types ∧
  id "mathesar_types" (Postgres MONEY) ≠ "" ∧
  (id "mathesar_types" (Postgres MONEY)
     = id "mathesar_types" (MathesarCustom MATHESAR_MONEY) →
   Postgres MONEY = MathesarCustom MATHESAR_MONEY) ∧
  size known_db_types = 46.
Proof.
  pose proof (known_db_types_catalog "mathesar_types")
    as (Hne & Hinj & _ & Hsize).
  assert (Postgres MONEY ∈ known_db_types) as H1 by (by vm_compute).
  assert (MathesarCustom MATHESAR_MONEY ∈ known_db_types) as H2
    by (by vm_compute).
  split; [exact H1|]. split; [exact H2|]. split; [|split].
  - exact (Hne _ H1).
  - exact (Hinj _ _ H1 H2).
  - rewrite Hsize. reflexivity.
Defined.

(** ** The registry *)

Lemma dict_get_Some_elem {V} (d : list (string * V)) (k : string) (v : V) :
  dict_get d k = Some v → (k, v) ∈ d.
Proof.
  unfold dict_get. destruct (find _ d) as [[k' v']|] eqn:Hf; [|done].
  intros [= <-]. apply find_some in Hf as [Hin Hk].
  apply bool_decide_eq_true in Hk. simpl in Hk. subst k'.
  by apply list_elem_of_In.
Qed.

Lemma dict_get_elem {V} (d : list (string * V)) (k : string) (v : V) :
  dict_wf d → (k, v) ∈ d → dict_get d k = Some v.
Proof.
  unfold dict_wf, dict_get. induction d as [|[k' v'] d IH]; simpl.
  - intros _ Hin. by apply elem_of_nil in Hin.
  - intros [Hk' Hd]%NoDup_cons [Heq|Hin]%elem_of_cons.
    + simplify_eq. by rewrite bool_decide_eq_true_2.
    + rewrite bool_decide_eq_false_2; [by apply IH|].
      intros ->. apply Hk'. apply list_elem_of_fmap. by exists (k, v).
Qed.

Lemma dict_get_None {V} (d : list (string * V)) (k : string) :
  dict_get d k = None ↔ k ∉ d.*1.
Proof.
  unfold dict_get. rewrite fmap_None, find_none_Forall, Forall_forall.
  rewrite list_elem_of_fmap. split.
  - intros Hall ([k' v] & -> & Hin).
    apply Hall in Hin. by apply bool_decide_eq_false in Hin.
  - intros Hno [k' v] Hin. apply bool_decide_eq_false. intros Hk.
    simpl in Hk. subst k'. apply Hno. by exists (k, v).
Qed.

(** C7: an ignored type has no class, whatever the registry holds; any
    other type gets the registry's item for its id, and [None] when the
    registry has none. *)
Theorem get_sa_class_spec (q : string) (t : DatabaseType) (engine : Engine) :
  let registry := ischema_names (dialect engine) in
  (is_ignored t = true → get_sa_class q t engine = None) ∧
  (is_ignored t = false →
     get_sa_class q t engine = dict_get registry (id q t)) ∧
  (is_ignored t = false → dict_wf registry →
     ∀ c, get_sa_class q t engine = Some c ↔ (id q t, c) ∈ registry) ∧
  (is_ignored t = false →
     (get_sa_class q t engine = None ↔ id q t ∉ registry.*1)).
Proof.
  intros registry. unfold get_sa_class. fold registry.
  split; [|split; [|split]].
  - by intros ->.
  - by intros ->.
  - intros -> Hwf c. simpl. split.
    + apply dict_get_Some_elem.
    + by apply dict_get_elem.
  - intros ->. simpl. apply dict_get_None.
Qed.

Lemma get_sa_class_spec_witness :
  is_ignored (Postgres FLOAT) = true ∧
  ("float", Sample.FLOAT_cls) ∈ ischema_names (dialect Sample.engine) ∧
  get_sa_class Sample.q (Postgres FLOAT) Sample.engine = None ∧
  is_ignored (Postgres NUMERIC) = false ∧
  get_sa_class Sample.q (Postgres NUMERIC) Sample.engine
    = Some Sample.NUMERIC_cls ∧
  is_ignored (Postgres TEXT) = false ∧
  (id Sample.q (Postgres TEXT) ∉ (ischema_names (dialect Sample.engine)).*1) ∧
  get_sa_class Sample.q (Postgres TEXT) Sample.engine = None.
Proof.
  assert (is_ignored (Postgres FLOAT) = true) as H1 by reflexivity.
  assert (is_ignored (Postgres NUMERIC) = false) as H2 by reflexivity.
  assert (is_ignored (Postgres TEXT) = false) as H3 by reflexivity.
  assert (id Sample.q (Postgres TEXT)
            ∉ (ischema_names (dialect Sample.engine)).*1) as H4.
  { simpl. rewrite !not_elem_of_cons. repeat split; try discriminate.
    apply not_elem_of_nil. }
  split; [exact H1|]. split; [simpl; rewrite !elem_of_cons; tauto|].
  split.
  { exact (proj1 (get_sa_class_spec Sample.q (Postgres FLOAT) Sample.engine)
             H1). }
  split; [exact H2|]. split.
  { destruct (get_sa_class_spec Sample.q (Postgres NUMERIC) Sample.engine)
      as (_ & Hget & _). rewrite (Hget H2). reflexivity. }
  split; [exact H3|]. split; [exact H4|].
  destruct (get_sa_class_spec Sample.q (Postgres TEXT) Sample.engine)
    as (_ & _ & _ & Hnone). apply (Hnone H3). exact H4.
Defined.

(** ** Reverse lookup *)

Lemma class_id_Some (c : SaClass) (engine : Engine) (k : string) :
  _get_sa_type_class_id_from_ischema_names (ObjClass c) engine = Some k ↔
  ∃ pre post,
    ischema_names (dialect engine) = (pre ++ (k, c) :: post)%list ∧
    Forall (λ item, item.2 ≠ c) pre.
Proof.
  unfold _get_sa_type_class_id_from_ischema_names. rewrite fmap_Some. split.
  - intros ([k' c'] & Hf & ->).
    apply find_split in Hf as (pre & post & Hl & Hp & Hpre).
    simpl in Hp. apply bool_decide_eq_true in Hp. subst c'.
    exists pre, post. split; [done|].
    eapply Forall_impl; [exact Hpre|]. intros item Hi. simpl in Hi.
    by apply bool_decide_eq_false in Hi.
  - intros (pre & post & Hl & Hpre). exists (k, c). split; [|done].
    apply find_split. exists pre, post. split; [done|]. split.
    + simpl. by apply bool_decide_eq_true.
    + eapply Forall_impl; [exact Hpre|]. intros item Hi. simpl.
      by apply bool_decide_eq_false.
Qed.

Lemma class_id_None (c : SaClass) (engine : Engine) :
  _get_sa_type_class_id_from_ischema_names (ObjClass c) engine = None ↔
  ∀ k, (k, c) ∉ ischema_names (dialect engine).
Proof.
  unfold _get_sa_type_class_id_from_ischema_names.
  rewrite fmap_None, find_none_Forall, Forall_forall. split.
  - intros Hall k Hin. apply Hall in Hin. simpl in Hin.
    by apply bool_decide_eq_false in Hin.
  - intros Hno [k c'] Hin. simpl. apply bool_decide_eq_false.
    intros ->. by apply (Hno k).
Qed.

Lemma from_class_instance (q : string) (i : SaInstance) (engine : Engine) :
  get_db_type_enum_from_class q (ObjInstance i) engine
    = Raise programming_error.
Proof. reflexivity. Qed.

Lemma from_class_no_item (q : string) (c : SaClass) (engine : Engine) :
  _get_sa_type_class_id_from_ischema_names (ObjClass c) engine = None →
  get_db_type_enum_from_class q (ObjClass c) engine
    = Raise unmapped_class_error.
Proof.
  intros Hnone. unfold get_db_type_enum_from_class, _sa_type_class_to_db_type_id.
  by rewrite Hnone.
Qed.

Lemma from_class_known (q : string) (c : SaClass) (engine : Engine) t :
  _get_sa_type_class_id_from_ischema_names (ObjClass c) engine
    = Some (id q t) →
  get_db_type_enum_from_class q (ObjClass c) engine = Ok t.
Proof.
  intros Hk. unfold get_db_type_enum_from_class, _sa_type_class_to_db_type_id.
  rewrite Hk. simpl. unfold str_bool.
  rewrite bool_decide_eq_false_2 by apply id_nonempty. simpl.
  by rewrite get_db_type_enum_from_id_id.
Qed.

Lemma from_class_unknown (q : string) (c : SaClass) (engine : Engine) k :
  _get_sa_type_class_id_from_ischema_names (ObjClass c) engine = Some k →
  (∀ t, id q t ≠ k) →
  get_db_type_enum_from_class q (ObjClass c) engine
    = Raise unmapped_class_error.
Proof.
  intros Hk Hno.
  unfold get_db_type_enum_from_class, _sa_type_class_to_db_type_id.
  rewrite Hk. simpl. destruct (str_bool k); [|done].
  by rewrite (get_db_type_enum_from_id_unknown q k Hno).
Qed.

(** The outcome of the reverse lookup is decided by the first registry
    item that holds the class. *)
Lemma from_class_Ok (q : string) (c : SaClass) (engine : Engine) t :
  get_db_type_enum_from_class q (ObjClass c) engine = Ok t ↔
  _get_sa_type_class_id_from_ischema_names (ObjClass c) engine
    = Some (id q t).
Proof.
  split; [|apply from_class_known]. intros Hr.
  destruct (_get_sa_type_class_id_from_ischema_names (ObjClass c) engine)
    as [k|] eqn:Hk.
  - destruct (get_db_type_enum_from_id_cases q k)
      as [(t' & <- & _)|[Hno _]].
    + rewrite (from_class_known q c engine t' Hk) in Hr. congruence.
    + rewrite (from_class_unknown q c engine k Hk Hno) in Hr. discriminate.
  - rewrite (from_class_no_item q c engine Hk) in Hr. discriminate.
Qed.

Lemma get_sa_class_Some_elem (q : string) t (engine : Engine) c :
  get_sa_class q t engine = Some c →
  is_ignored t = false ∧ (id q t, c) ∈ ischema_names (dialect engine).
Proof.
  unfold get_sa_class. destruct (is_ignored t); simpl; [done|].
  intros Hget. split; [done|]. by apply dict_get_Some_elem.
Qed.

(** C4 as stated fails: with a registry that maps two ids to one class,
    the class of [TIMESTAMP_WITH_TIME_ZONE] is looked up back as
    [TIMESTAMP], the first id that holds it. *)
Lemma round_trip_shared_class :
  get_sa_class Sample.q (Postgres TIMESTAMP_WITH_TIME_ZONE) Sample.engine
    = Some Sample.TIMESTAMP_cls ∧
  get_db_type_enum_from_class Sample.q (ObjClass Sample.TIMESTAMP_cls)
    Sample.engine = Ok (Postgres TIMESTAMP) ∧
  get_db_type_enum_from_class Sample.q (ObjClass Sample.TIMESTAMP_cls)
    Sample.engine ≠ Ok (Postgres TIMESTAMP_WITH_TIME_ZONE).
Proof.
  split; [reflexivity|]. split; [reflexivity|].
  vm_compute. intros [=].
Qed.

(** C4 (amended): when [get_sa_class] gives type [t] the class [c], the
    reverse lookup of [c] returns [t] exactly when the item for [t]'s id is
    the first one in the registry, in iteration order, that holds [c]; so it
    does whenever no other id is mapped to [c]. *)
Theorem round_trip_first_item
    (q : string) (t : DatabaseType) (engine : Engine) (c : SaClass) :
  get_sa_class q t engine = Some c →
  (get_db_type_enum_from_class q (ObjClass c) engine = Ok t ↔
   ∃ pre post,
     ischema_names (dialect engine) = (pre ++ (id q t, c) :: post)%list ∧
     Forall (λ item, item.2 ≠ c) pre) ∧
  ((∀ k, (k, c) ∈ ischema_names (dialect engine) → k = id q t) →
   get_db_type_enum_from_class q (ObjClass c) engine = Ok t).
Proof.
  intros [_ Hin]%get_sa_class_Some_elem. split.
  - rewrite from_class_Ok. apply class_id_Some.
  - intros Honly. apply from_class_Ok.
    destruct (_get_sa_type_class_id_from_ischema_names (ObjClass c) engine)
      as [k|] eqn:Hk.
    + f_equal. apply Honly.
      apply class_id_Some in Hk as (pre & post & -> & _).
      apply elem_of_app. right. by left.
    + exfalso. by apply (proj1 (class_id_None c engine) Hk (id q t)).
Qed.

Lemma round_trip_first_item_witness :
  get_sa_class Sample.q (Postgres NUMERIC) Sample.engine
    = Some Sample.NUMERIC_cls ∧
  (∀ k, (k, Sample.NUMERIC_cls) ∈ ischema_names (dialect Sample.engine) →
        k = id Sample.q (Postgres NUMERIC)) ∧
  get_db_type_enum_from_class Sample.q (ObjClass Sample.NUMERIC_cls)
    Sample.engine = Ok (Postgres NUMERIC).
Proof.
  assert (get_sa_class Sample.q (Postgres NUMERIC) Sample.engine
            = Some Sample.NUMERIC_cls) as Hget by reflexivity.
  assert (∀ k, (k, Sample.NUMERIC_cls)
                 ∈ ischema_names (dialect Sample.engine) →
               k = id Sample.q (Postgres NUMERIC)) as Honly.
  { intros k. simpl. rewrite !elem_of_cons, elem_of_nil.
    intros [H|[H|[H|[H|[H|[H|[]]]]]]]; by inversion H. }
  split; [exact Hget|]. split; [exact Honly|].
  exact (proj2 (round_trip_first_item Sample.q (Postgres NUMERIC)
                  Sample.engine Sample.NUMERIC_cls Hget) Honly).
Defined.

(** C5: the reverse lookup never hands back an absent result.  An argument
    that is not a class raises the programming error whatever the engine
    is; a class held by no registry item, or held first under an id that is
    not the id of a known type, raises the mapping error; and any value
    returned is a known type whose id is in the registry with that class. *)
Theorem get_db_type_enum_from_class_raises
    (q : string) (sa_type : PyObj) (engine : Engine) :
  let registry := ischema_names (dialect engine) in
  let outcome := get_db_type_enum_from_class q sa_type engine in
  (isclass sa_type = false →
     ∀ engine', get_db_type_enum_from_class q sa_type engine'
                = Raise programming_error) ∧
  (∀ c, sa_type = ObjClass c → (∀ k, (k, c) ∉ registry) →
     outcome = Raise unmapped_class_error) ∧
  (∀ c k pre post, sa_type = ObjClass c →
     registry = (pre ++ (k, c) :: post)%list →
     Forall (λ item, item.2 ≠ c) pre →
     (∀ t, id q t ≠ k) →
     outcome = Raise unmapped_class_error) ∧
  (∀ t, outcome = Ok t →
     t ∈ known_db_types ∧ ∃ c, sa_type = ObjClass c ∧ (id q t, c) ∈ registry) ∧
  ((∃ t, outcome = Ok t) ∨ outcome = Raise programming_error
   ∨ outcome = Raise unmapped_class_error).
Proof.
  intros registry outcome. subst registry outcome.
  split; [|split; [|split; [|split]]].
  - destruct sa_type as [c|i]; [done|]. intros _ engine'.
    apply from_class_instance.
  - intros c -> Hno. by apply from_class_no_item, class_id_None.
  - intros c k pre post -> Hreg Hpre Hno.
    apply (from_class_unknown q c engine k); [|done].
    apply class_id_Some. eauto.
  - intros t Hr. split; [apply known_db_types_all|].
    destruct sa_type as [c|i]; [|by rewrite from_class_instance in Hr].
    exists c. split; [done|].
    apply from_class_Ok, class_id_Some in Hr as (pre & post & -> & _).
    apply elem_of_app. right. by left.
  - destruct sa_type as [c|i]; [|right; left; apply from_class_instance].
    destruct (_get_sa_type_class_id_from_ischema_names (ObjClass c) engine)
      as [k|] eqn:Hk.
    + destruct (get_db_type_enum_from_id_cases q k)
        as [(t & <- & _)|[Hno _]].
      * left. exists t. by apply from_class_known.
      * right. right. by apply (from_class_unknown q c engine k).
    + right. right. by apply from_class_no_item.
Qed.

Lemma get_db_type_enum_from_class_raises_witness :
  let an_instance :=
    ObjInstance {| inst_class := Sample.NUMERIC_cls; inst_state := [] |} in
  (isclass an_instance = false ∧
   get_db_type_enum_from_class Sample.q an_instance Sample.engine
     = Raise programming_error) ∧
  ((∀ k, (k, Sample.Unregistered_cls)
           ∉ ischema_names (dialect Sample.engine)) ∧
   get_db_type_enum_from_class Sample.q (ObjClass Sample.Unregistered_cls)
     Sample.engine = Raise unmapped_class_error) ∧
  ((∀ t, id Sample.q t ≠ "citext") ∧
   get_db_type_enum_from_class Sample.q (ObjClass Sample.CITEXT_cls)
     Sample.engine = Raise unmapped_class_error).
Proof.
  intros an_instance. split; [|split].
  - assert (isclass an_instance = false) as Hi by reflexivity.
    split; [exact Hi|].
    exact (proj1 (get_db_type_enum_from_class_raises Sample.q an_instance
                    Sample.engine) Hi Sample.engine).
  - assert (∀ k, (k, Sample.Unregistered_cls)
                   ∉ ischema_names (dialect Sample.engine)) as Hno.
    { intros k. simpl. rewrite !not_elem_of_cons.
      repeat split; try (intros [=]). apply not_elem_of_nil. }
    split; [exact Hno|].
    destruct (get_db_type_enum_from_class_raises Sample.q
                (ObjClass Sample.Unregistered_cls) Sample.engine)
      as (_ & Hnone & _).
    exact (Hnone _ eq_refl Hno).
  - assert (∀ t, id Sample.q t ≠ "citext") as Hno.
    { intros [[]|[]]; vm_compute; discriminate. }
    split; [exact Hno|].
    destruct (get_db_type_enum_from_class_raises Sample.q
                (ObjClass Sample.CITEXT_cls) Sample.engine)
      as (_ & _ & Hunk & _).
    apply (Hunk Sample.CITEXT_cls "citext"
             [ ("boolean", Sample.BOOLEAN_cls);
               ("float", Sample.FLOAT_cls);
               ("numeric", Sample.NUMERIC_cls);
               ("timestamp", Sample.TIMESTAMP_cls);
               ("timestamp with time zone", Sample.TIMESTAMP_cls) ]
             [] eq_refl eq_refl); [|exact Hno].
    repeat constructor; simpl; discriminate.
Defined.

(** ** Compiling a type *)

(** C3 as stated fails: [BOOLEAN]'s class rejects the option with
    [TypeError]; instantiating it without arguments and compiling would
    give SQL text, but [get_sa_instance_compiled] raises the [TypeError]. *)
Lemma get_sa_instance_compiled_no_fallback :
  let opts := [("length", VInt 5)] in
  get_sa_class Sample.q (Postgres BOOLEAN) Sample.engine
    = Some Sample.BOOLEAN_cls ∧
  sa_new Sample.runtime Sample.BOOLEAN_cls opts
    = Raise (TypeError "__init__() got an unexpected keyword argument") ∧
  (instance ← sa_new Sample.runtime Sample.BOOLEAN_cls [];
   sa_compile Sample.runtime instance (dialect Sample.engine))
    = Ok "sqlalchemy.BOOLEAN" ∧
  get_sa_instance_compiled Sample.q Sample.runtime (Postgres BOOLEAN)
    Sample.engine opts
    = Raise (TypeError "__init__() got an unexpected keyword argument") ∧
  ∀ text, get_sa_instance_compiled Sample.q Sample.runtime (Postgres BOOLEAN)
            Sample.engine opts ≠ Ok text.
Proof. repeat split. intros text. vm_compute. discriminate. Qed.

(** C3 (amended): for a type whose class exists, [get_sa_instance_compiled]
    instantiates the class with the given options and returns the compiled
    text; whatever the instantiation or the compilation raises, a
    [TypeError] included, is raised to the caller, and no instantiation
    without arguments is tried.  The retry on [TypeError] with a
    no-argument instance is what [_compile_sa_class] does, which takes no
    options: it first calls [compile] on the object it was given. *)
Theorem get_sa_instance_compiled_spec
    (q : string) (sa : SaRuntime) (t : DatabaseType) (engine : Engine)
    (type_options : kwargs) (c : SaClass) :
  get_sa_class q t engine = Some c →
  (∀ e, sa_new sa c type_options = Raise e →
        get_sa_instance_compiled q sa t engine type_options = Raise e) ∧
  (∀ i e, sa_new sa c type_options = Ok i →
          sa_compile sa i (dialect engine) = Raise e →
          get_sa_instance_compiled q sa t engine type_options = Raise e) ∧
  (∀ i text, sa_new sa c type_options = Ok i →
             sa_compile sa i (dialect engine) = Ok text →
             get_sa_instance_compiled q sa t engine type_options
               = Ok (Some text)) ∧
  (∀ msg, obj_compile sa (ObjClass c) (dialect engine) = Raise (TypeError msg) →
          _compile_sa_class sa (ObjClass c) engine
            = (instance ← sa_new sa c [];
               sa_compile sa instance (dialect engine))) ∧
  (∀ text, obj_compile sa (ObjClass c) (dialect engine) = Ok text →
           _compile_sa_class sa (ObjClass c) engine = Ok text).
Proof.
  intros Hget. unfold get_sa_instance_compiled, _compile_sa_class.
  rewrite Hget. split; [|split; [|split; [|split]]].
  - by intros e ->.
  - intros i e -> Hc. simpl. by rewrite Hc.
  - intros i text -> Hc. simpl. by rewrite Hc.
  - by intros msg ->.
  - by intros text ->.
Qed.

Lemma get_sa_instance_compiled_spec_witness :
  let opts := [("precision", VInt 10); ("scale", VInt 2)] in
  let instance := {| inst_class := Sample.NUMERIC_cls; inst_state := opts |} in
  get_sa_class Sample.q (Postgres NUMERIC) Sample.engine
    = Some Sample.NUMERIC_cls ∧
  sa_new Sample.runtime Sample.NUMERIC_cls opts = Ok instance ∧
  sa_compile Sample.runtime instance (dialect Sample.engine)
    = Ok "sqlalchemy.NUMERIC" ∧
  get_sa_instance_compiled Sample.q Sample.runtime (Postgres NUMERIC)
    Sample.engine opts = Ok (Some "sqlalchemy.NUMERIC").
Proof.
  intros opts instance.
  assert (get_sa_class Sample.q (Postgres NUMERIC) Sample.engine
            = Some Sample.NUMERIC_cls) as Hget by reflexivity.
  assert (sa_new Sample.runtime Sample.NUMERIC_cls opts = Ok instance)
    as Hnew by reflexivity.
  assert (sa_compile Sample.runtime instance (dialect Sample.engine)
            = Ok "sqlalchemy.NUMERIC") as Hc by reflexivity.
  split; [exact Hget|]. split; [exact Hnew|]. split; [exact Hc|].
  destruct (get_sa_instance_compiled_spec Sample.q Sample.runtime
              (Postgres NUMERIC) Sample.engine opts Sample.NUMERIC_cls Hget)
    as (_ & _ & Hok & _).
  exact (Hok instance "sqlalchemy.NUMERIC" Hnew Hc).
Defined.

(** ** Availability *)

Lemma is_available_snapshot (q : string) (t : DatabaseType) (engine : Engine)
    (ids : gset string) (n : nat) :
  is_available q t engine (Some ids) n = (Ok (bool_decide (id q t ∈ ids)), n).
Proof. reflexivity. Qed.

Lemma get_type_ids_Ok (engine : Engine) (conn : Connection)
    (rows : list string) (n : nat) :
  connect engine = Ok conn →
  execute_type_names conn = Ok rows →
  _get_type_ids_on_database engine n = (Ok (list_to_set rows), S n).
Proof.
  intros Hconn Hrows. unfold _get_type_ids_on_database, call, execute.
  unfold mbind, IO_bind. by rewrite Hconn, Hrows.
Qed.

(** No connection: the error is raised and no statement is executed. *)
Lemma get_type_ids_connect_Raise (engine : Engine) (e : exn) (n : nat) :
  connect engine = Raise e →
  _get_type_ids_on_database engine n = (Raise e, n).
Proof.
  intros Hconn. unfold _get_type_ids_on_database, call.
  unfold mbind, IO_bind. by rewrite Hconn.
Qed.

(** The statement fails on the connection: the error is raised after it. *)
Lemma get_type_ids_execute_Raise (engine : Engine) (conn : Connection)
    (e : exn) (n : nat) :
  connect engine = Ok conn →
  execute_type_names conn = Raise e →
  _get_type_ids_on_database engine n = (Raise e, S n).
Proof.
  intros Hconn Hrows. unfold _get_type_ids_on_database, call, execute.
  unfold mbind, IO_bind. by rewrite Hconn, Hrows.
Qed.

(** Filtering with a test that executes nothing executes nothing. *)
Lemma filterM_pure {A} (p : A → IO bool) (P : A → Prop)
    `{∀ x, Decision (P x)} (l : list A) (n : nat) :
  (∀ x m, p x m = (Ok (bool_decide (P x)), m)) →
  filterM p l n = (Ok (filter P l), n).
Proof.
  intros Hp. revert n. induction l as [|x l IH]; intros n; simpl; [done|].
  unfold mbind, IO_bind at 1. rewrite Hp.
  unfold mbind, IO_bind. rewrite IH, filter_cons.
  by case_bool_decide; case_decide.
Qed.

Lemma get_available_known_db_types_Ok
    (q : string) (engine : Engine) (conn : Connection) (rows : list string)
    (n : nat) :
  connect engine = Ok conn →
  execute_type_names conn = Ok rows →
  get_available_known_db_types q engine n
    = (Ok (filter (λ t, id q t ∈ (list_to_set rows : gset string))
                  (elements known_db_types)),
       S n).
Proof.
  intros Hconn Hrows. unfold get_available_known_db_types.
  unfold mbind, IO_bind at 1.
  rewrite (get_type_ids_Ok engine conn rows n Hconn Hrows).
  apply filterM_pure. intros t m. apply is_available_snapshot.
Qed.

(** C8: with a snapshot supplied, [is_available] is the membership of the
    type's id in the snapshot and executes nothing; no classification
    enters.  [get_available_known_db_types] executes the introspection
    statement once and returns, each once, the known types whose id is in
    that one result.  When no connection can be made it raises the error
    with no statement executed, and when the statement fails on the
    connection it raises the error after that one statement. *)
Theorem is_available_membership
    (q : string) (t : DatabaseType) (engine : Engine) (n : nat) :
  (∀ ids : gset string,
     is_available q t engine (Some ids) n
       = (Ok (bool_decide (id q t ∈ ids)), n)) ∧
  (∀ conn rows, connect engine = Ok conn →
     execute_type_names conn = Ok rows →
     is_available q t engine None n
       = (Ok (bool_decide (id q t ∈ (list_to_set rows : gset string))), S n)) ∧
  (∀ conn rows, connect engine = Ok conn →
     execute_type_names conn = Ok rows →
     ∃ l, get_available_known_db_types q engine n = (Ok l, S n) ∧
          NoDup l ∧
          ∀ t', t' ∈ l ↔
                t' ∈ known_db_types ∧
                id q t' ∈ (list_to_set rows : gset string)) ∧
  (∀ e, connect engine = Raise e →
     get_available_known_db_types q engine n = (Raise e, n)) ∧
  (∀ conn e, connect engine = Ok conn →
     execute_type_names conn = Raise e →
     get_available_known_db_types q engine n = (Raise e, S n)).
Proof.
  split; [|split; [|split; [|split]]].
  - intros ids. apply is_available_snapshot.
  - intros conn rows Hconn Hrows. unfold is_available.
    unfold mbind, IO_bind at 1.
    by rewrite (get_type_ids_Ok engine conn rows n Hconn Hrows).
  - intros conn rows Hconn Hrows. eexists. split; [|split].
    + by apply (get_available_known_db_types_Ok q engine conn).
    + apply NoDup_filter, NoDup_elements.
    + intros t'. rewrite list_elem_of_filter, elem_of_elements. tauto.
  - intros e Hconn. unfold get_available_known_db_types.
    unfold mbind, IO_bind at 1.
    by rewrite (get_type_ids_connect_Raise engine e n Hconn).
  - intros conn e Hconn Hrows. unfold get_available_known_db_types.
    unfold mbind, IO_bind at 1.
    by rewrite (get_type_ids_execute_Raise engine conn e n Hconn Hrows).
Qed.

Lemma is_available_membership_witness :
  let snapshot : gset string := {[ "numeric"; "text"; "boolean" ]} in
  is_available Sample.q (Postgres NUMERIC) Sample.engine (Some snapshot) 0
    = (Ok true, 0) ∧
  is_available Sample.q (Postgres FLOAT) Sample.engine
    (Some ({[ "float" ]} : gset string)) 0 = (Ok true, 0) ∧
  is_available Sample.q (MathesarCustom EMAIL) Sample.engine (Some snapshot) 0
    = (Ok false, 0) ∧
  connect Sample.engine = Ok Sample.connection ∧
  execute_type_names Sample.connection
    = Ok ["numeric"; "text"; "boolean"; "float"; "xml"] ∧
  (∃ l, get_available_known_db_types Sample.q Sample.engine 0 = (Ok l, 1) ∧
        Postgres NUMERIC ∈ l ∧ Postgres FLOAT ∈ l ∧ Postgres UUID ∉ l) ∧
  connect Sample.broken_engine = Raise (DBAPIError "connection refused") ∧
  get_available_known_db_types Sample.q Sample.broken_engine 0
    = (Raise (DBAPIError "connection refused"), 0) ∧
  connect Sample.denied_engine = Ok Sample.denied_connection ∧
  execute_type_names Sample.denied_connection
    = Raise (DBAPIError "permission denied") ∧
  get_available_known_db_types Sample.q Sample.denied_engine 0
    = (Raise (DBAPIError "permission denied"), 1).
Proof.
  intros snapshot.
  destruct (is_available_membership Sample.q (Postgres NUMERIC)
              Sample.engine 0) as (Hnum & _ & Hall & _).
  destruct (is_available_membership Sample.q (Postgres FLOAT)
              Sample.engine 0) as (Hfloat & _).
  destruct (is_available_membership Sample.q (MathesarCustom EMAIL)
              Sample.engine 0) as (Hemail & _).
  assert (connect Sample.engine = Ok Sample.connection)
    as Hconn by reflexivity.
  assert (execute_type_names Sample.connection
            = Ok ["numeric"; "text"; "boolean"; "float"; "xml"])
    as Hrows by reflexivity.
  split; [rewrite Hnum; reflexivity|].
  split; [rewrite Hfloat; reflexivity|].
  split; [rewrite Hemail; reflexivity|].
  split; [exact Hconn|]. split; [exact Hrows|]. split.
  { destruct (Hall _ _ Hconn Hrows) as (l & Hl & _ & Hmem).
    exists l. split; [exact Hl|]. split; [|split].
    + apply Hmem. split; [apply known_db_types_all|]. by vm_compute.
    + apply Hmem. split; [apply known_db_types_all|]. by vm_compute.
    + intros [_ Hin]%Hmem. vm_compute in Hin. discriminate. }
  split; [reflexivity|]. split.
  { destruct (is_available_membership Sample.q (Postgres NUMERIC)
                Sample.broken_engine 0) as (_ & _ & _ & Hraise & _).
    exact (Hraise _ eq_refl). }
  split; [reflexivity|]. split; [reflexivity|].
  destruct (is_available_membership Sample.q (Postgres NUMERIC)
              Sample.denied_engine 0) as (_ & _ & _ & _ & Hraise).
  exact (Hraise _ _ eq_refl eq_refl).
Defined.

(** * Further properties of the module *)

(** ** Removing a prefix *)

Lemma startswith_app (prefix s : string) : startswith (prefix ++ s) prefix = true.
Proof.
  induction prefix as [|a prefix IH]; simpl; [done|].
  rewrite bool_decide_eq_true_2 by done. exact IH.
Qed.

Lemma startswith_true (self prefix : string) :
  startswith self prefix = true → ∃ r, self = prefix ++ r.
Proof.
  revert self. induction prefix as [|a prefix IH]; intros self; simpl.
  - intros _. by exists self.
  - destruct self as [|b self]; [done|].
    intros [Hab Hrest]%andb_true_iff. apply bool_decide_eq_true in Hab.
    destruct (IH _ Hrest) as [r ->]. exists r. by subst.
Qed.

Lemma slice_from_app (prefix s : string) :
  slice_from (String.length prefix) (prefix ++ s) = s.
Proof. induction prefix as [|a prefix IH]; simpl; [done|exact IH]. Qed.

Lemma string_app_assoc (s1 s2 s3 : string) :
  (s1 ++ s2) ++ s3 = s1 ++ (s2 ++ s3).
Proof.
  induction s1 as [|a s1 IH]; [done|].
  change (String a ((s1 ++ s2) ++ s3) = String a (s1 ++ (s2 ++ s3))).
  by f_equal.
Qed.

Lemma string_length_app (s1 s2 : string) :
  String.length (s1 ++ s2) = (String.length s1 + String.length s2)%nat.
Proof.
  induction s1 as [|a s1 IH]; [done|].
  change (S (String.length (s1 ++ s2))
          = S (String.length s1 + String.length s2)).
  by f_equal.
Qed.

(** X1: a string built by putting [prefix] in front of [s] loses exactly
    that prefix again, whatever [s] is; only one copy of the prefix is
    removed. *)
Theorem remove_prefix_app (prefix s : string) :
  _remove_prefix (prefix ++ s) prefix = s ∧
  _remove_prefix (prefix ++ prefix ++ s) prefix = prefix ++ s.
Proof.
  unfold _remove_prefix.
  by rewrite !startswith_app, !slice_from_app.
Qed.

(** X2: [_remove_prefix] returns a string that does not begin with the
    prefix unchanged; in every case the result is the input or the input
    without its leading [prefix], so it is never longer than the input. *)
Theorem remove_prefix_otherwise (self prefix : string) :
  ((∀ r, self ≠ prefix ++ r) → _remove_prefix self prefix = self) ∧
  (_remove_prefix self prefix = self
   ∨ self = prefix ++ _remove_prefix self prefix) ∧
  (String.length (_remove_prefix self prefix) ≤ String.length self)%nat.
Proof.
  unfold _remove_prefix. destruct (startswith self prefix) eqn:Hs.
  - destruct (startswith_true _ _ Hs) as [r ->].
    rewrite slice_from_app. split; [|split].
    + intros Hno. by destruct (Hno r).
    + by right.
    + rewrite string_length_app. lia.
  - split; [done|]. split; [by left|lia].
Qed.

Lemma remove_prefix_otherwise_witness :
  (∀ r, "email" ≠ "mathesar_types." ++ r) ∧
  _remove_prefix "email" "mathesar_types." = "email".
Proof.
  assert (∀ r, "email" ≠ "mathesar_types." ++ r) as Hno.
  { intros r. simpl. discriminate. }
  split; [exact Hno|].
  exact (proj1 (remove_prefix_otherwise "email" "mathesar_types.") Hno).
Defined.

(** X3: removing the qualifier and its dot from a qualified name gives the
    unqualified name back.  So the id of a custom type is turned back into
    the name it was defined with, while the id of a built-in type is left
    as it is. *)
Theorem remove_prefix_qualified (q : string) :
  (∀ n, _remove_prefix (get_qualified_name q n) (q ++ ".") = n) ∧
  (∀ c, _remove_prefix (id q (MathesarCustom c)) (q ++ ".")
        = MathesarCustomType_unqualified_id c) ∧
  (∀ p, _remove_prefix (id q (Postgres p)) (q ++ ".") = id q (Postgres p)).
Proof.
  assert (∀ n, _remove_prefix (get_qualified_name q n) (q ++ ".") = n) as Hq.
  { intros n. unfold get_qualified_name, _remove_prefix.
    rewrite <- string_app_assoc. by rewrite startswith_app, slice_from_app. }
  split; [exact Hq|]. split; [intros c; apply Hq|].
  intros p. simpl. unfold _remove_prefix.
  destruct (startswith _ _) eqn:Hs; [|done].
  apply startswith_true in Hs as [r Hr].
  pose proof (PostgresType_value_no_dot p) as Hd.
  rewrite Hr, string_app_assoc, has_dot_qualified in Hd. discriminate.
Qed.

(** ** The quirk sets *)

(** X4: the classifying frozensets hold built-in types only, so a custom
    type is never an alias, engine-only, optional, inconsistent or ignored,
    and its reflection is always supported. *)
Theorem custom_type_no_quirks (c : MathesarCustomType) :
  _inconsistent_db_types ∪ _sa_only_db_types ∪ _optional_db_types
    ⊆ _known_vanilla_db_types ∧
  is_alias (MathesarCustom c) = false ∧
  is_sa_only (MathesarCustom c) = false ∧
  is_optional (MathesarCustom c) = false ∧
  is_inconsistent (MathesarCustom c) = false ∧
  is_ignored (MathesarCustom c) = false ∧
  is_reflection_supported (MathesarCustom c) = true.
Proof.
  split.
  - intros t Ht. apply known_vanilla_elem.
    unfold _inconsistent_db_types, _non_canonical_alias_db_types,
      _sa_only_db_types, _optional_db_types in Ht.
    rewrite !elem_of_union, !elem_of_singleton in Ht.
    destruct t as [p|c']; [by exists p|].
    destruct Ht as [[[[[?|?]|?]|[[?|?]|?]]|?]|?]; discriminate.
  - by destruct c.
Qed.

(** X5: a type that is engine-only or optional is never inconsistent, so
    it is not ignored and its reflection is supported; and no type is both
    engine-only and optional. *)
Theorem sa_only_optional_consistent (t : DatabaseType) :
  (is_sa_only t = true ∨ is_optional t = true →
     is_inconsistent t = false ∧ is_ignored t = false
     ∧ is_reflection_supported t = true) ∧
  (is_sa_only t = true → is_optional t = false).
Proof.
  unfold is_reflection_supported, is_sa_only, is_optional, is_inconsistent,
    is_ignored, _sa_only_db_types, _optional_db_types.
  split.
  - rewrite !bool_decide_eq_true, !elem_of_singleton.
    intros [->| ->]; by vm_compute.
  - rewrite bool_decide_eq_true, elem_of_singleton. intros ->. by vm_compute.
Qed.

Lemma sa_only_optional_consistent_witness :
  is_optional (Postgres HSTORE) = true ∧
  is_ignored (Postgres HSTORE) = false ∧
  is_sa_only (Postgres _ARRAY) = true ∧
  is_optional (Postgres _ARRAY) = false.
Proof.
  assert (is_optional (Postgres HSTORE) = true) as H1 by reflexivity.
  assert (is_sa_only (Postgres _ARRAY) = true) as H2 by reflexivity.
  split; [exact H1|]. split.
  { destruct (proj1 (sa_only_optional_consistent (Postgres HSTORE))
                (or_intror H1)) as (_ & Hign & _). exact Hign. }
  split; [exact H2|].
  exact (proj2 (sa_only_optional_consistent (Postgres _ARRAY)) H2).
Defined.

(** ** Resolving ids *)

(** X6: resolving an id is the inverse of taking a type's id: an id
    resolves to a type exactly when it is that type's id, and to nothing
    exactly when it is no known type's id. *)
Theorem get_db_type_enum_from_id_inverse (q v : string) :
  (∀ t, get_db_type_enum_from_id q v = Ok (Some t) ↔ id q t = v) ∧
  (get_db_type_enum_from_id q v = Ok None ↔ ∀ t, id q t ≠ v).
Proof.
  split; [intros t; apply get_db_type_enum_from_id_Some|]. split.
  - intros Hnone t Hid. apply get_db_type_enum_from_id_Some in Hid.
    congruence.
  - apply get_db_type_enum_from_id_unknown.
Qed.

(** ** From a class to a type and back *)

(** X7: on a registry with each id once, a type that the reverse lookup
    of class [c] returns leads back to [c] through [get_sa_class] unless
    the type is ignored; an ignored type is returned by the reverse lookup
    all the same, and then [get_sa_class] gives nothing for it. *)
Theorem class_round_trip
    (q : string) (c : SaClass) (engine : Engine) (t : DatabaseType) :
  dict_wf (ischema_names (dialect engine)) →
  get_db_type_enum_from_class q (ObjClass c) engine = Ok t →
  (is_ignored t = false → get_sa_class q t engine = Some c) ∧
  (is_ignored t = true → get_sa_class q t engine = None).
Proof.
  intros Hwf Hr.
  apply from_class_Ok, class_id_Some in Hr as (pre & post & Hreg & _).
  unfold get_sa_class. split; intros ->; simpl; [|done].
  apply dict_get_elem; [done|]. rewrite Hreg.
  apply elem_of_app. right. by left.
Qed.

Lemma sample_registry_wf : dict_wf (ischema_names (dialect Sample.engine)).
Proof. unfold dict_wf. apply (bool_decide_unpack _). by vm_compute. Qed.

Lemma class_round_trip_witness :
  dict_wf (ischema_names (dialect Sample.engine)) ∧
  (get_db_type_enum_from_class Sample.q (ObjClass Sample.NUMERIC_cls)
     Sample.engine = Ok (Postgres NUMERIC) ∧
   is_ignored (Postgres NUMERIC) = false ∧
   get_sa_class Sample.q (Postgres NUMERIC) Sample.engine
     = Some Sample.NUMERIC_cls) ∧
  (get_db_type_enum_from_class Sample.q (ObjClass Sample.TIMESTAMP_cls)
     Sample.engine = Ok (Postgres TIMESTAMP) ∧
   is_ignored (Postgres TIMESTAMP) = true ∧
   get_sa_class Sample.q (Postgres TIMESTAMP) Sample.engine = None).
Proof.
  assert (get_db_type_enum_from_class Sample.q (ObjClass Sample.NUMERIC_cls)
            Sample.engine = Ok (Postgres NUMERIC)) as H1 by reflexivity.
  assert (is_ignored (Postgres NUMERIC) = false) as H2 by reflexivity.
  assert (get_db_type_enum_from_class Sample.q
            (ObjClass Sample.TIMESTAMP_cls) Sample.engine
          = Ok (Postgres TIMESTAMP)) as H3 by reflexivity.
  assert (is_ignored (Postgres TIMESTAMP) = true) as H4 by reflexivity.
  split; [exact sample_registry_wf|]. split.
  - split; [exact H1|]. split; [exact H2|].
    exact (proj1 (class_round_trip Sample.q Sample.NUMERIC_cls Sample.engine
                    (Postgres NUMERIC) sample_registry_wf H1) H2).
  - split; [exact H3|]. split; [exact H4|].
    exact (proj2 (class_round_trip Sample.q Sample.TIMESTAMP_cls
                    Sample.engine (Postgres TIMESTAMP) sample_registry_wf H3)
             H4).
Defined.

(** ** Compiling, continued *)

(** X8: [get_sa_instance_compiled] returns [None] exactly when the type
    has no class on the engine; with a class it returns text or raises.
    In particular an ignored type gives [None] under every library and
    with every option, and the library is not called for it. *)
Theorem get_sa_instance_compiled_None
    (q : string) (sa : SaRuntime) (t : DatabaseType) (engine : Engine)
    (type_options : kwargs) :
  (get_sa_instance_compiled q sa t engine type_options = Ok None ↔
   get_sa_class q t engine = None) ∧
  (is_ignored t = true →
   get_sa_instance_compiled q sa t engine type_options = Ok None).
Proof.
  unfold get_sa_instance_compiled. split.
  - destruct (get_sa_class q t engine) as [c|] eqn:Hc; [|done].
    split; [|done].
    destruct (sa_new sa c type_options) as [i|e]; simpl; [|done].
    by destruct (sa_compile sa i (dialect engine)).
  - intros Hign. unfold get_sa_class. by rewrite Hign.
Qed.

Lemma get_sa_instance_compiled_None_witness :
  is_ignored (Postgres FLOAT) = true ∧
  ("float", Sample.FLOAT_cls) ∈ ischema_names (dialect Sample.engine) ∧
  get_sa_instance_compiled Sample.q SampleExtra.strict_runtime
    (Postgres FLOAT) Sample.engine [("precision", VInt 24)] = Ok None.
Proof.
  assert (is_ignored (Postgres FLOAT) = true) as Hign by reflexivity.
  split; [exact Hign|]. split; [simpl; rewrite !elem_of_cons; tauto|].
  exact (proj2 (get_sa_instance_compiled_None Sample.q
                  SampleExtra.strict_runtime (Postgres FLOAT) Sample.engine
                  [("precision", VInt 24)]) Hign).
Defined.

(** X9: when calling [compile] on the class itself raises [TypeError],
    [_compile_sa_class] on the class of a type and
    [get_sa_instance_compiled] on that type without options do the same:
    instantiate without arguments and compile, with the same text or the
    same error. *)
Theorem compile_paths_agree
    (q : string) (sa : SaRuntime) (t : DatabaseType) (engine : Engine)
    (c : SaClass) (msg : string) :
  get_sa_class q t engine = Some c →
  sa_class_compile sa c (dialect engine) = Raise (TypeError msg) →
  get_sa_instance_compiled q sa t engine []
    = (text ← _compile_sa_class sa (ObjClass c) engine; mret (Some text)).
Proof.
  intros Hget Hcls. unfold get_sa_instance_compiled, _compile_sa_class.
  rewrite Hget. simpl. rewrite Hcls. simpl.
  destruct (sa_new sa c []) as [i|e]; simpl; [|done].
  by destruct (sa_compile sa i (dialect engine)).
Qed.

Lemma compile_paths_agree_witness :
  get_sa_class Sample.q (Postgres BOOLEAN) Sample.engine
    = Some Sample.BOOLEAN_cls ∧
  sa_class_compile Sample.runtime Sample.BOOLEAN_cls (dialect Sample.engine)
    = Raise (TypeError "compile() missing 1 required positional argument") ∧
  _compile_sa_class Sample.runtime (ObjClass Sample.BOOLEAN_cls) Sample.engine
    = Ok "sqlalchemy.BOOLEAN" ∧
  get_sa_instance_compiled Sample.q Sample.runtime (Postgres BOOLEAN)
    Sample.engine [] = Ok (Some "sqlalchemy.BOOLEAN").
Proof.
  assert (get_sa_class Sample.q (Postgres BOOLEAN) Sample.engine
            = Some Sample.BOOLEAN_cls) as Hget by reflexivity.
  assert (sa_class_compile Sample.runtime Sample.BOOLEAN_cls
            (dialect Sample.engine)
          = Raise (TypeError
                     "compile() missing 1 required positional argument"))
    as Hcls by reflexivity.
  split; [exact Hget|]. split; [exact Hcls|]. split; [reflexivity|].
  rewrite (compile_paths_agree Sample.q Sample.runtime (Postgres BOOLEAN)
             Sample.engine Sample.BOOLEAN_cls _ Hget Hcls).
  reflexivity.
Defined.

(** X10: [_compile_sa_class] retries only after a [TypeError] and only
    once.  An error of another kind raised by the first [compile] is
    raised to the caller without an instantiation; after a [TypeError], an
    error raised by the no-argument instantiation, a [TypeError] included,
    is raised to the caller, and otherwise the outcome is that of compiling
    the new instance. *)
Theorem compile_sa_class_retry
    (sa : SaRuntime) (sa_class : PyObj) (engine : Engine) :
  (∀ e, obj_compile sa sa_class (dialect engine) = Raise e →
        (∀ msg, e ≠ TypeError msg) →
        _compile_sa_class sa sa_class engine = Raise e) ∧
  (∀ msg e, obj_compile sa sa_class (dialect engine) = Raise (TypeError msg) →
            obj_call sa sa_class = Raise e →
            _compile_sa_class sa sa_class engine = Raise e) ∧
  (∀ msg i, obj_compile sa sa_class (dialect engine) = Raise (TypeError msg) →
            obj_call sa sa_class = Ok i →
            _compile_sa_class sa sa_class engine
              = sa_compile sa i (dialect engine)).
Proof.
  unfold _compile_sa_class. split; [|split].
  - intros e -> Hne. destruct e as [msg| | |]; simpl; try done.
    by destruct (Hne msg).
  - by intros msg e -> ->.
  - by intros msg i -> ->.
Qed.

Lemma compile_sa_class_retry_witness :
  (obj_compile SampleExtra.failing_runtime (ObjClass Sample.BOOLEAN_cls)
     (dialect Sample.engine) = Raise (Exception "unsupported compilation") ∧
   _compile_sa_class SampleExtra.failing_runtime
     (ObjClass Sample.BOOLEAN_cls) Sample.engine
     = Raise (Exception "unsupported compilation")) ∧
  (obj_call SampleExtra.strict_runtime (ObjClass SampleExtra.ARRAY_cls)
     = Raise (TypeError "__init__() missing 1 required positional argument") ∧
   _compile_sa_class SampleExtra.strict_runtime
     (ObjClass SampleExtra.ARRAY_cls) Sample.engine
     = Raise (TypeError "__init__() missing 1 required positional argument")) ∧
  (obj_call Sample.runtime (ObjClass Sample.NUMERIC_cls)
     = Ok {| inst_class := Sample.NUMERIC_cls; inst_state := [] |} ∧
   _compile_sa_class Sample.runtime (ObjClass Sample.NUMERIC_cls)
     Sample.engine = Ok "sqlalchemy.NUMERIC").
Proof.
  split; [|split].
  - split; [reflexivity|].
    apply (proj1 (compile_sa_class_retry SampleExtra.failing_runtime
                    (ObjClass Sample.BOOLEAN_cls) Sample.engine));
      [reflexivity|discriminate].
  - split; [reflexivity|].
    destruct (compile_sa_class_retry SampleExtra.strict_runtime
                (ObjClass SampleExtra.ARRAY_cls) Sample.engine)
      as (_ & Hretry & _).
    exact (Hretry _ _ eq_refl eq_refl).
  - split; [reflexivity|].
    destruct (compile_sa_class_retry Sample.runtime
                (ObjClass Sample.NUMERIC_cls) Sample.engine)
      as (_ & _ & Hok).
    rewrite (Hok _ _ eq_refl eq_refl). reflexivity.
Defined.

(** ** Availability, continued *)

Lemma is_available_fresh (q : string) (t : DatabaseType) (engine : Engine)
    (conn : Connection) (rows : list string) (n : nat) :
  connect engine = Ok conn →
  execute_type_names conn = Ok rows →
  is_available q t engine None n
    = (Ok (bool_decide (id q t ∈ (list_to_set rows : gset string))), S n).
Proof.
  intros Hconn Hrows. unfold is_available. unfold mbind, IO_bind at 1.
  by rewrite (get_type_ids_Ok engine conn rows n Hconn Hrows).
Qed.

(** X11: the available known types depend only on which type names the
    introspection statement returns: two engines whose results hold the
    same names, in whatever order and however often, give the same types,
    whatever their dialects' registries are. *)
Theorem available_types_rows_as_set
    (q : string) (engine1 engine2 : Engine) (conn1 conn2 : Connection)
    (rows1 rows2 : list string) (n1 n2 : nat) :
  connect engine1 = Ok conn1 →
  execute_type_names conn1 = Ok rows1 →
  connect engine2 = Ok conn2 →
  execute_type_names conn2 = Ok rows2 →
  (∀ x, x ∈ rows1 ↔ x ∈ rows2) →
  (get_available_known_db_types q engine1 n1).1
    = (get_available_known_db_types q engine2 n2).1.
Proof.
  intros Hc1 H1 Hc2 H2 Hsame.
  rewrite (get_available_known_db_types_Ok q engine1 conn1 rows1 n1 Hc1 H1).
  rewrite (get_available_known_db_types_Ok q engine2 conn2 rows2 n2 Hc2 H2).
  assert ((list_to_set rows1 : gset string) = list_to_set rows2) as ->; [|done].
  apply set_eq. intros x. by rewrite !elem_of_list_to_set.
Qed.

Lemma available_types_rows_as_set_witness :
  connect Sample.engine = Ok Sample.connection ∧
  execute_type_names Sample.connection
    = Ok ["numeric"; "text"; "boolean"; "float"; "xml"] ∧
  connect SampleExtra.shuffled_engine = Ok SampleExtra.shuffled_connection ∧
  execute_type_names SampleExtra.shuffled_connection
    = Ok ["xml"; "float"; "boolean"; "numeric"; "text"; "float"; "xml"] ∧
  (get_available_known_db_types Sample.q Sample.engine 0).1
    = (get_available_known_db_types Sample.q SampleExtra.shuffled_engine 7).1.
Proof.
  split; [reflexivity|]. split; [reflexivity|].
  split; [reflexivity|]. split; [reflexivity|].
  apply (available_types_rows_as_set Sample.q Sample.engine
           SampleExtra.shuffled_engine _ _ _ _ 0 7
           eq_refl eq_refl eq_refl eq_refl).
  intros x. rewrite !elem_of_cons, !elem_of_nil. tauto.
Defined.

(** X12: the batch and the single check agree: on a database whose
    introspection succeeds, a type is among the available known types
    exactly when [is_available], called without a snapshot, answers true
    for it; the single check executes one statement of its own each time. *)
Theorem available_types_agree
    (q : string) (engine : Engine) (conn : Connection) (rows : list string)
    (n m : nat) :
  connect engine = Ok conn →
  execute_type_names conn = Ok rows →
  ∃ l, get_available_known_db_types q engine n = (Ok l, S n) ∧
       ∀ t, t ∈ l ↔ is_available q t engine None m = (Ok true, S m).
Proof.
  intros Hconn Hrows. eexists. split.
  - by apply (get_available_known_db_types_Ok q engine conn).
  - intros t. rewrite (is_available_fresh q t engine conn rows m Hconn Hrows).
    rewrite list_elem_of_filter, elem_of_elements. split.
    + intros [Hin _]. by rewrite bool_decide_eq_true_2.
    + intros [= Hb]. apply bool_decide_eq_true in Hb.
      split; [done|apply known_db_types_all].
Qed.

Lemma available_types_agree_witness :
  connect Sample.engine = Ok Sample.connection ∧
  execute_type_names Sample.connection
    = Ok ["numeric"; "text"; "boolean"; "float"; "xml"] ∧
  ∃ l, get_available_known_db_types Sample.q Sample.engine 0 = (Ok l, 1) ∧
       Postgres TEXT ∈ l ∧
       is_available Sample.q (Postgres TEXT) Sample.engine None 3
         = (Ok true, 4).
Proof.
  split; [reflexivity|]. split; [reflexivity|].
  destruct (available_types_agree Sample.q Sample.engine _ _ 0 3
              eq_refl eq_refl) as (l & Hl & Hagree).
  exists l. split; [exact Hl|].
  assert (is_available Sample.q (Postgres TEXT) Sample.engine None 3
          = (Ok true, 4)) as Hav by reflexivity.
  split; [apply Hagree; exact Hav|exact Hav].
Defined.

Lemma filter_none {A} (P : A → Prop) `{∀ x, Decision (P x)} (l : list A) :
  (∀ x, ¬ P x) → filter P l = [].
Proof.
  intros Hno. induction l as [|x l IH]; [done|].
  by rewrite filter_cons_False.
Qed.

(** X13: when none of the ids of the known types is among the names the
    database reports, and so also when it reports no name at all, the
    result is the empty tuple, not an error. *)
Theorem available_types_none_installed
    (q : string) (engine : Engine) (conn : Connection) (rows : list string)
    (n : nat) :
  connect engine = Ok conn →
  execute_type_names conn = Ok rows →
  (∀ t, id q t ∉ rows) →
  get_available_known_db_types q engine n = (Ok [], S n).
Proof.
  intros Hconn Hrows Hno.
  rewrite (get_available_known_db_types_Ok q engine conn rows n Hconn Hrows).
  do 2 f_equal. apply filter_none. intros t Hin.
  apply elem_of_list_to_set in Hin. by apply (Hno t).
Qed.

Lemma available_types_none_installed_witness :
  connect SampleExtra.bare_engine = Ok SampleExtra.bare_connection ∧
  execute_type_names SampleExtra.bare_connection = Ok ["xml"; "pg_lsn"] ∧
  (∀ t, id Sample.q t ∉ ["xml"; "pg_lsn"]) ∧
  get_available_known_db_types Sample.q SampleExtra.bare_engine 0
    = (Ok [], 1).
Proof.
  assert (∀ t, id Sample.q t ∉ ["xml"; "pg_lsn"]) as Hno.
  { intros t. rewrite !not_elem_of_cons.
    split; [|split; [|apply not_elem_of_nil]];
      destruct t as [[]|[]]; vm_compute; discriminate. }
  split; [reflexivity|]. split; [reflexivity|]. split; [exact Hno|].
  exact (available_types_none_installed Sample.q SampleExtra.bare_engine
           _ _ 0 eq_refl eq_refl Hno).
Defined.

(** X14: without a snapshot, [is_available] on a database whose
    introspection fails raises the driver's error instead of answering
    false: with no statement executed when no connection can be made, and
    after the one statement when the statement fails on the connection.
    With a snapshot it answers from the snapshot and the failing database
    is not touched. *)
Theorem is_available_query_error
    (q : string) (t : DatabaseType) (engine : Engine) (e : exn) (n : nat) :
  (connect engine = Raise e →
   is_available q t engine None n = (Raise e, n)) ∧
  (∀ conn, connect engine = Ok conn →
           execute_type_names conn = Raise e →
           is_available q t engine None n = (Raise e, S n)) ∧
  (∀ ids : gset string,
     is_available q t engine (Some ids) n
       = (Ok (bool_decide (id q t ∈ ids)), n)).
Proof.
  split; [|split; [|intros ids; apply is_available_snapshot]].
  - intros Hconn. unfold is_available. unfold mbind, IO_bind at 1.
    by rewrite (get_type_ids_connect_Raise engine e n Hconn).
  - intros conn Hconn Hrows. unfold is_available.
    unfold mbind, IO_bind at 1.
    by rewrite (get_type_ids_execute_Raise engine conn e n Hconn Hrows).
Qed.

Lemma is_available_query_error_witness :
  (connect Sample.broken_engine = Raise (DBAPIError "connection refused") ∧
   is_available Sample.q (Postgres TEXT) Sample.broken_engine None 0
     = (Raise (DBAPIError "connection refused"), 0) ∧
   is_available Sample.q (Postgres TEXT) Sample.broken_engine
     (Some ({[ "text" ]} : gset string)) 0 = (Ok true, 0)) ∧
  (connect Sample.denied_engine = Ok Sample.denied_connection ∧
   execute_type_names Sample.denied_connection
     = Raise (DBAPIError "permission denied") ∧
   is_available Sample.q (Postgres TEXT) Sample.denied_engine None 0
     = (Raise (DBAPIError "permission denied"), 1)).
Proof.
  split.
  - destruct (is_available_query_error Sample.q (Postgres TEXT)
                Sample.broken_engine (DBAPIError "connection refused") 0)
      as (Hraise & _ & Hsnap).
    split; [reflexivity|]. split; [exact (Hraise eq_refl)|].
    rewrite Hsnap. reflexivity.
  - destruct (is_available_query_error Sample.q (Postgres TEXT)
                Sample.denied_engine (DBAPIError "permission denied") 0)
      as (_ & Hraise & _).
    split; [reflexivity|]. split; [reflexivity|].
    exact (Hraise _ eq_refl eq_refl).
Defined.
